(** * xprezzo-finalhandler: the final step of an HTTP request

    A shallow embedding of [index.js] and the properties of its
    status, header and message derivation, of the HTML document it
    writes, and of the order in which it touches the request and the
    response.

    JavaScript values are an inductive type; numbers keep [NaN], the
    infinities and the fractions, since the source only compares them.
    The request, the response and the registered listeners form a
    [world] that is threaded through a state-and-exception monad,
    together with the trace of the calls made on the collaborators.

    The handler is embedded twice.  In the first embedding a read of a
    property and a call on a collaborator are recorded and return; the
    second one, [finish_with], adds where they can throw ([faults]): a
    getter of the error, a method of the response.  When nothing fails
    the two agree ([undisturbed_run]).

    The modules the source requires ([statuses], [escape-html],
    [encodeurl], [parseurl], [Buffer]) and the conversion of numbers to
    strings are parameters of the development; [Sample] instantiates
    them to run the handler on the requests of the test suite. *)

From Stdlib Require Import String Ascii List ZArith QArith Bool Lia DecimalString.
Import ListNotations.

Set Warnings "-register-all".

Open Scope string_scope.
Open Scope list_scope.

(** ** JavaScript numbers *)

Module Num.

(** A double is [NaN], an infinity, or a finite value; finite doubles
    are rationals and the source only compares them, so [Q] is exact. *)
Inductive number : Type :=
| NaN
| PosInf
| NegInf
| Fin (q : Q).

Definition of_Z (z : Z) : number := Fin (inject_Z z).

(** The relational comparison of two numbers; [None] is "unordered". *)
Definition compare (a b : number) : option comparison :=
  match a, b with
  | NaN, _ | _, NaN => None
  | PosInf, PosInf => Some Eq
  | PosInf, _ => Some Gt
  | _, PosInf => Some Lt
  | NegInf, NegInf => Some Eq
  | NegInf, _ => Some Lt
  | _, NegInf => Some Gt
  | Fin p, Fin q => Some (Qcompare p q)
  end.

(** [a < b], [a > b], [a >= b] as JavaScript evaluates them. *)
Definition lt (a b : number) : bool :=
  match compare a b with Some Lt => true | _ => false end.

Definition gt (a b : number) : bool :=
  match compare a b with Some Gt => true | _ => false end.

Definition ge (a b : number) : bool :=
  match compare a b with Some Gt | Some Eq => true | _ => false end.

(** ToBoolean on numbers: zero and NaN are falsy. *)
Definition truthy (a : number) : bool :=
  match a with
  | NaN => false
  | PosInf | NegInf => true
  | Fin q => negb (Qeq_bool q 0)
  end.

(** The number is a mathematical integer. *)
Definition is_integer (a : number) : Prop :=
  exists z : Z, a = of_Z z.

(** The number is finite and lies between two rationals. *)
Definition in_range (lo : Q) (a : number) (hi : Q) (strict : bool) : Prop :=
  match a with
  | Fin q => (lo <= q)%Q /\ (if strict then (q < hi)%Q else (q <= hi)%Q)
  | _ => False
  end.

End Num.

Abbreviation number := Num.number.

(** ** JavaScript values *)

(** The built-in methods that a property read on the values of this
    development can reach. *)
Inductive builtin : Type :=
| ObjectProtoToString
| ObjectProtoValueOf
| PrimitiveToString
| PrimitiveValueOf
| FunctionProtoToString.

(** An object is its own properties, in [Object.keys] order, followed by
    the property tables of its prototype chain; properties are data
    properties.  A function written by the user is modelled by what a
    call without arguments does: it returns a value or throws one. *)
Inductive value : Type :=
| VUndefined
| VNull
| VBool (b : bool)
| VNumber (n : number)
| VString (s : string)
| VSymbol (description : string)
| VObject (own : list (string * value)) (protos : list (list (string * value)))
| VFunReturn (result : value)
| VFunThrow (thrown : value)
| VBuiltin (b : builtin).

(** The result of evaluating an expression: a value or a thrown exception. *)
Inductive completion (A : Type) : Type :=
| Normal (a : A)
| Throw (exn : value).

Arguments Normal {A} a.
Arguments Throw {A} exn.

Definition TypeError (msg : string) : value :=
  VObject [("message", VString msg); ("name", VString "TypeError")] [].

(** [typeof v] *)
Definition typeof (v : value) : string :=
  match v with
  | VUndefined => "undefined"
  | VNull => "object"
  | VBool _ => "boolean"
  | VNumber _ => "number"
  | VString _ => "string"
  | VSymbol _ => "symbol"
  | VObject _ _ => "object"
  | VFunReturn _ | VFunThrow _ | VBuiltin _ => "function"
  end.

(** ToBoolean *)
Definition truthy (v : value) : bool :=
  match v with
  | VUndefined | VNull => false
  | VBool b => b
  | VNumber n => Num.truthy n
  | VString s => negb (String.eqb s "")
  | _ => true
  end.

(** [a || b] *)
Definition js_or (a b : value) : value :=
  if truthy a then a else b.

Fixpoint assoc {A : Type} (k : string) (l : list (string * A)) : option A :=
  match l with
  | [] => None
  | (k', v) :: l' => if String.eqb k k' then Some v else assoc k l'
  end.

(** The first table of a prototype chain that has the key decides. *)
Fixpoint chain_lookup (k : string) (tables : list (list (string * value)))
  : value :=
  match tables with
  | [] => VUndefined
  | t :: rest =>
      match assoc k t with
      | Some v => v
      | None => chain_lookup k rest
      end
  end.

Definition Object_prototype : list (string * value) :=
  [("toString", VBuiltin ObjectProtoToString);
   ("valueOf", VBuiltin ObjectProtoValueOf)].

(** The prototype of the wrapper of a string, number, boolean or symbol:
    of its properties only [toString] and [valueOf] are modelled. *)
Definition Primitive_prototype : list (string * value) :=
  [("toString", VBuiltin PrimitiveToString);
   ("valueOf", VBuiltin PrimitiveValueOf)].

Definition Function_prototype : list (string * value) :=
  [("toString", VBuiltin FunctionProtoToString)].

(** [v.k]: reading a property of [undefined] or [null] throws. *)
Definition get (v : value) (k : string) : completion value :=
  match v with
  | VUndefined | VNull =>
      Throw (TypeError "Cannot read properties of undefined or null")
  | VBool _ | VNumber _ | VString _ | VSymbol _ =>
      Normal (chain_lookup k [Primitive_prototype; Object_prototype])
  | VObject own protos => Normal (chain_lookup k (own :: protos))
  | VFunReturn _ | VFunThrow _ | VBuiltin _ =>
      Normal (chain_lookup k [Function_prototype; Object_prototype])
  end.

Definition is_function (v : value) : bool :=
  String.eqb (typeof v) "function".

Definition is_primitive (v : value) : bool :=
  match v with
  | VObject _ _ | VFunReturn _ | VFunThrow _ | VBuiltin _ => false
  | _ => true
  end.

(** [v === s] for a string literal [s] *)
Definition strict_eq_string (v : value) (s : string) : bool :=
  match v with
  | VString s' => String.eqb s' s
  | _ => false
  end.

(** [Object.keys(o)] *)
Definition Object_keys (o : value) : list string :=
  match o with
  | VObject own _ => map fst own
  | _ => []
  end.

(** [o[k] = v] on a table of own properties: an existing key keeps its
    place, a new one is added last. *)
Fixpoint set_prop (k : string) (v : value) (own : list (string * value))
  : list (string * value) :=
  match own with
  | [] => [(k, v)]
  | (k', v') :: rest =>
      if String.eqb k k' then (k, v) :: rest else (k', v') :: set_prop k v rest
  end.

(** ** The collaborators: request, response, listeners *)

Record request : Type := mkRequest {
  req_method : string;
  req_url : value;
  req_originalUrl : value;
  (** what [isFinished(req)] reports *)
  req_finished : bool;
  (** the stream has a destination attached by [pipe] *)
  req_piped : bool;
  (** the stream is in flowing mode: its data is being consumed *)
  req_flowing : bool
}.

Record response : Type := mkResponse {
  res_statusCode : value;
  res_statusMessage : value;
  res_headersSent : value;
  res__header : value
}.

(** The closure [write] of [sendResponse], by the variables it captures. *)
Inductive listener : Type :=
| WriteListener (status : number) (headers : value) (message : value).

(** What the handler does to its collaborators, in order.  The calls on
    the collaborators (the methods of the response and of the request,
    [debug], [defer], the [emit] of the app) are recorded and return
    normally; what can throw is what the error value itself brings: its
    [toString] and its conversion to a string.  Where a call or a read
    of a property can throw as well is the subject of [faults]. *)
Inductive event : Type :=
| EvErrGet (key : string)
| EvErrCall (key : string)
| EvDebug (format : string) (args : list value)
| EvEmit (name : string) (payload : value)
| EvDefer (callback : value) (err : value)
| EvSetStatusCode (status : number)
| EvSetStatusMessage (phrase : value)
| EvSetHeader (name : string) (v : value)
| EvEnd (chunk : option string)
| EvUnpipe
| EvOnFinished (l : listener)
| EvResume
| EvRequestFinished.

Record world : Type := mkWorld {
  w_req : request;
  w_res : response;
  w_listeners : list listener;
  w_trace : list event
}.

(** ** A state and exception monad over the world *)

Definition M (A : Type) : Type := world -> completion A * world.

Definition ret {A : Type} (a : A) : M A := fun w => (Normal a, w).

Definition bind {A B : Type} (m : M A) (k : A -> M B) : M B :=
  fun w =>
    match m w with
    | (Normal a, w') => k a w'
    | (Throw e, w') => (Throw e, w')
    end.

Definition lift {A : Type} (c : completion A) : M A := fun w => (c, w).

Definition log (e : event) : M unit :=
  fun w => (Normal tt,
            mkWorld (w_req w) (w_res w) (w_listeners w) (w_trace w ++ [e])).

Definition get_req : M request := fun w => (Normal (w_req w), w).
Definition get_res : M response := fun w => (Normal (w_res w), w).

Definition put_res (r : response) : M unit :=
  fun w => (Normal tt, mkWorld (w_req w) r (w_listeners w) (w_trace w)).

Definition put_req (r : request) : M unit :=
  fun w => (Normal tt, mkWorld r (w_res w) (w_listeners w) (w_trace w)).

Definition add_listener (l : listener) : M unit :=
  fun w => (Normal tt,
            mkWorld (w_req w) (w_res w) (w_listeners w ++ [l]) (w_trace w)).

Declare Scope monad_scope.
Delimit Scope monad_scope with monad.
Notation "x <- c ;; k" := (bind c (fun x => k))
  (at level 61, c at next level, right associativity) : monad_scope.
Notation "c ;; k" := (bind c (fun _ => k))
  (at level 61, right associativity) : monad_scope.
Open Scope monad_scope.

(** ** Where a read or a call can throw

    A property of a value handed to the handler may be an accessor
    whose getter throws, and a call on a collaborator (a method of the
    response, of the request or of the app, [debug], [defer]) may throw:
    the response of Node refuses a header name that is not a token.
    [faults] says where that happens. *)

Record faults : Type := mkFaults {
  (** what the getter of property [k] of [v] throws, if it throws *)
  getter_throws : value -> string -> option value;
  (** what a collaborator throws instead of doing the call *)
  call_throws : event -> option value
}.

(** Data properties only, and collaborators that return. *)
Definition no_faults : faults := mkFaults (fun _ _ => None) (fun _ => None).

(** [v.k] where the property may be an accessor *)
Definition read (f : faults) (v : value) (k : string) : completion value :=
  match get v k with
  | Throw e => Throw e
  | Normal x =>
      match getter_throws f v k with
      | Some e => Throw e
      | None => Normal x
      end
  end.

(** A call on a collaborator: [m] is what the call does when the
    collaborator accepts it. *)
Definition attempt {A : Type} (f : faults) (e : event) (m : M A) : M A :=
  match call_throws f e with
  | Some x => lift (Throw x)
  | None => m
  end.

Definition perform (f : faults) (e : event) : M unit :=
  attempt f e (log e).

(** ** Strings: the two global replacements of [createHtmlDocument] *)

(** [s.replace(/pat/g, rep)] for a pattern that is a literal, non-empty
    string: the matches are found from left to right and do not overlap.
    [skip] counts the characters of the current match still to be dropped. *)
Fixpoint replace_from (pat rep : string) (skip : nat) (s : string) : string :=
  match s with
  | EmptyString => EmptyString
  | String c rest =>
      match skip with
      | S n => replace_from pat rep n rest
      | O =>
          if String.prefix pat s
          then rep ++ replace_from pat rep (String.length pat - 1) rest
          else String c (replace_from pat rep 0 rest)
      end
  end.

Definition replace_all (pat rep s : string) : string :=
  replace_from pat rep 0 s.

Definition newline : ascii := "010"%char.
Definition space : ascii := " "%char.

(** [/\n/g] *)
Definition NEWLINE_REGEXP : string := String newline EmptyString.
(** [/\x20{2}/g] *)
Definition DOUBLE_SPACE_REGEXP : string := String space (String space EmptyString).

Definition dquote : string := String (ascii_of_nat 34) EmptyString.

(** The fixed document around the body. *)
Definition html_prefix : string :=
  "<!DOCTYPE html>" ++ NEWLINE_REGEXP ++
  "<html lang=" ++ dquote ++ "en" ++ dquote ++ ">" ++ NEWLINE_REGEXP ++
  "<head>" ++ NEWLINE_REGEXP ++
  "<meta charset=" ++ dquote ++ "utf-8" ++ dquote ++ ">" ++ NEWLINE_REGEXP ++
  "<title>Error</title>" ++ NEWLINE_REGEXP ++
  "</head>" ++ NEWLINE_REGEXP ++
  "<body>" ++ NEWLINE_REGEXP ++
  "<pre>".

Definition html_suffix : string :=
  "</pre>" ++ NEWLINE_REGEXP ++
  "</body>" ++ NEWLINE_REGEXP ++
  "</html>" ++ NEWLINE_REGEXP.

(** The options of the exported function. *)
Record options : Type := mkOptions {
  opt_env : value;
  opt_onerror : value;
  opt_app : value
}.

(** [{}] *)
Definition no_options : options := mkOptions VUndefined VUndefined VUndefined.

(** ** A sample instance of the dependencies

    Used to run the handler on concrete requests; the theorems below
    hold for every instance. *)

Module Sample.

(** The conversion of a number to a string, exact on the integers, which
    are what the samples convert into a document; of another finite
    number only the integer part is printed. *)
Definition number_to_string (n : number) : string :=
  match n with
  | Num.NaN => "NaN"
  | Num.PosInf => "Infinity"
  | Num.NegInf => "-Infinity"
  | Num.Fin q =>
      let z := (Qnum q / Zpos (Qden q))%Z in
      let digits := NilZero.string_of_uint (N.to_uint (Z.to_N (Z.abs z))) in
      if (z <? 0)%Z then "-" ++ digits else digits
  end.

(** The 4xx and 5xx entries of the table of [statuses]. *)
Definition codes : list (Z * string) :=
  [(400, "Bad Request"); (401, "Unauthorized"); (402, "Payment Required");
   (403, "Forbidden"); (404, "Not Found"); (405, "Method Not Allowed");
   (406, "Not Acceptable"); (407, "Proxy Authentication Required");
   (408, "Request Timeout"); (409, "Conflict"); (410, "Gone");
   (411, "Length Required"); (412, "Precondition Failed");
   (413, "Payload Too Large"); (414, "URI Too Long");
   (415, "Unsupported Media Type"); (416, "Range Not Satisfiable");
   (417, "Expectation Failed"); (418, "I'm a Teapot");
   (421, "Misdirected Request"); (422, "Unprocessable Entity");
   (423, "Locked"); (424, "Failed Dependency"); (425, "Too Early");
   (426, "Upgrade Required"); (428, "Precondition Required");
   (429, "Too Many Requests"); (431, "Request Header Fields Too Large");
   (451, "Unavailable For Legal Reasons");
   (500, "Internal Server Error"); (501, "Not Implemented");
   (502, "Bad Gateway"); (503, "Service Unavailable");
   (504, "Gateway Timeout"); (505, "HTTP Version Not Supported");
   (506, "Variant Also Negotiates"); (507, "Insufficient Storage");
   (508, "Loop Detected"); (509, "Bandwidth Limit Exceeded");
   (510, "Not Extended"); (511, "Network Authentication Required")]%Z.

Fixpoint lookup_code (z : Z) (l : list (Z * string)) : option string :=
  match l with
  | [] => None
  | (c, s) :: rest => if (c =? z)%Z then Some s else lookup_code z rest
  end.

Definition statuses_message (n : number) : option string :=
  match n with
  | Num.Fin q =>
      if (Zpos (Qden q) =? 1)%Z then lookup_code (Qnum q) codes else None
  | _ => None
  end.

(** [escape-html]: the five characters it replaces. *)
Fixpoint escapeHtml (s : string) : string :=
  match s with
  | EmptyString => EmptyString
  | String c rest =>
      let r := escapeHtml rest in
      if Ascii.eqb c (ascii_of_nat 34) then "&quot;" ++ r
      else if Ascii.eqb c "&" then "&amp;" ++ r
      else if Ascii.eqb c "'" then "&#39;" ++ r
      else if Ascii.eqb c "<" then "&lt;" ++ r
      else if Ascii.eqb c ">" then "&gt;" ++ r
      else String c r
  end.

(** [encodeUrl] on a path that needs no encoding. *)
Definition encodeUrl (v : value) : string :=
  match v with
  | VString s => s
  | VNull => "null"
  | _ => "undefined"
  end.

Fixpoint pathname (s : string) : string :=
  match s with
  | EmptyString => EmptyString
  | String c rest =>
      if Ascii.eqb c "?" then EmptyString else String c (pathname rest)
  end.

(** [parseUrl.original] on an origin-form URL: [undefined] when the
    request has no URL. *)
Definition parseUrl_original (req : request) : completion value :=
  let url :=
    match req_originalUrl req with
    | VString u => VString u
    | _ => req_url req
    end in
  match url with
  | VString u =>
      Normal (VObject [("pathname", VString (pathname u))] [Object_prototype])
  | _ => Normal VUndefined
  end.

Definition Buffer_byteLength (s : string) : number :=
  Num.of_Z (Z.of_nat (String.length s)).

(** A GET request for a path, a fresh response, nothing sent yet. *)
Definition fresh (method path : string) (finished : bool) : world :=
  mkWorld (mkRequest method (VString path) VUndefined finished false false)
          (mkResponse (VNumber (Num.of_Z 200)) VUndefined (VBool false) VNull)
          [] [].

(** [new Error(message)] with extra properties, as [createError] of
    the tests builds it. *)
Definition createError (message : string) (props : list (string * value))
  : value :=
  let summary := ("Error: " ++ message)%string in
  VObject (props ++
           [("stack", VString (summary ++ NEWLINE_REGEXP ++ "    at test.js:1:1"));
            ("message", VString message)])
          [[("toString", VFunReturn (VString summary));
            ("name", VString "Error")];
           Object_prototype].

(** The inputs of the examples. *)

Definition production : value := VString "production".

(** [status: 400, statusCode: 401] *)
Definition conflicting_error : value :=
  createError "nope" [("status", VNumber (Num.of_Z 400));
                      ("statusCode", VNumber (Num.of_Z 401))].

Definition custom_headers : list (string * value) :=
  [("X-Custom-Header", VString "foo=500"); ("X-Custom-Header2", VString "bar")].

Definition error_with_headers : value :=
  createError "oops!" [("headers", VObject custom_headers [Object_prototype]);
                       ("status", VNumber (Num.of_Z 500))].

Definition not_implemented : value :=
  createError "boom!" [("status", VNumber (Num.of_Z 501))].

(** [status: 599.5] *)
Definition fractional_status : value :=
  createError "oops" [("status", VNumber (Num.Fin (1199 # 2)))].

(** [{ toString () { throw 'boom' } }] without a prototype *)
Definition throwing_toString : value :=
  VObject [("toString", VFunThrow (VString "boom"))] [].

(** An app whose [emit] is a function. *)
Definition with_app : options :=
  mkOptions VUndefined VUndefined
    (VObject [("emit", VFunReturn (VBool true))] [Object_prototype]).

(** A response whose headers were sent. *)
Definition sent (w : world) : world :=
  mkWorld (w_req w)
    (mkResponse (res_statusCode (w_res w)) (res_statusMessage (w_res w))
       (VBool true) (res__header (w_res w)))
    (w_listeners w) (w_trace w).

(** [res.statusCode = NaN] *)
Definition with_nan_status (w : world) : world :=
  mkWorld (w_req w)
    (mkResponse (VNumber Num.NaN) (res_statusMessage (w_res w))
       (res_headersSent (w_res w)) (res__header (w_res w)))
    (w_listeners w) (w_trace w).

(** [headers] that spell standard names their own way. *)
Definition shadowing_error : value :=
  createError "oops"
    [("headers",
      VObject [("content-type", VString "text/plain");
               ("X-CONTENT-TYPE-OPTIONS", VString "sniff")]
              [Object_prototype]);
     ("status", VNumber (Num.of_Z 400))].

(** An error whose [headers] inherit a property. *)
Definition inheriting_headers : value :=
  createError "oops"
    [("headers",
      VObject [("Retry-After", VString "5")]
              [[("X-Inherited", VString "1")]; Object_prototype]);
     ("statusCode", VNumber (Num.of_Z 429))].

(** [{ env: 'test' }] *)
Definition test_env : options :=
  mkOptions (VString "test") VUndefined VUndefined.

Fixpoint has_space (s : string) : bool :=
  match s with
  | EmptyString => false
  | String c rest => Ascii.eqb c space || has_space rest
  end.

(** A response that, like the one of Node, refuses a header name with
    a space in it; no getter throws and every other call returns. *)
Definition strict_response : faults :=
  mkFaults (fun _ _ => None)
    (fun e =>
       match e with
       | EvSetHeader name _ =>
           if has_space name
           then Some (TypeError "Invalid character in header name")
           else None
       | _ => None
       end).

(** [get status () { throw 'boom' }]: the getter of [status] throws. *)
Definition throwing_status_getter : faults :=
  mkFaults
    (fun _ k => if String.eqb k "status" then Some (VString "boom") else None)
    (fun _ => None).

(** [headers: { 'bad name': 'x' }] *)
Definition bad_header_name : value :=
  createError "oops"
    [("headers", VObject [("bad name", VString "x")] [Object_prototype]);
     ("status", VNumber (Num.of_Z 400))].

End Sample.

(** ** The handler *)

Section Finalhandler.

(** The dependencies of [index.js], as parameters:
    the conversion of a number to a string by the runtime,
    [statuses.message[status]], [escapeHtml] once its argument is a
    string, [encodeUrl], [parseUrl.original] and [Buffer.byteLength]. *)
Variable number_to_string : number -> string.
Variable statuses_message : number -> option string.
Variable escapeHtml : string -> string.
Variable encodeUrl : value -> string.
Variable parseUrl_original : request -> completion value.
Variable Buffer_byteLength : string -> number.

(** *** Calls and conversions of the runtime *)

Definition class_of (v : value) : string :=
  match v with
  | VUndefined => "Undefined"
  | VNull => "Null"
  | VBool _ => "Boolean"
  | VNumber _ => "Number"
  | VString _ => "String"
  | VSymbol _ => "Symbol"
  | VObject _ _ => "Object"
  | VFunReturn _ | VFunThrow _ | VBuiltin _ => "Function"
  end.

Definition call_builtin (b : builtin) (this : value) : completion value :=
  match b with
  | ObjectProtoToString =>
      Normal (VString ("[object " ++ class_of this ++ "]"))
  | ObjectProtoValueOf | PrimitiveValueOf => Normal this
  | PrimitiveToString =>
      match this with
      | VBool b => Normal (VString (if b then "true" else "false"))
      | VNumber n => Normal (VString (number_to_string n))
      | VString s => Normal (VString s)
      | VSymbol d => Normal (VString ("Symbol(" ++ d ++ ")"))
      | _ => Throw (TypeError "incompatible receiver")
      end
  | FunctionProtoToString =>
      Normal (VString "function () { [native code] }")
  end.

(** [f.call(this)] *)
Definition call (f : value) (this : value) : completion value :=
  match f with
  | VFunReturn v => Normal v
  | VFunThrow e => Throw e
  | VBuiltin b => call_builtin b this
  | _ => Throw (TypeError "not a function")
  end.

(** ToString on a primitive; a symbol cannot be concatenated. *)
Definition primitive_to_string (v : value) : completion string :=
  match v with
  | VUndefined => Normal "undefined"
  | VNull => Normal "null"
  | VBool b => Normal (if b then "true" else "false")
  | VNumber n => Normal (number_to_string n)
  | VString s => Normal s
  | _ => Throw (TypeError "Cannot convert a Symbol value to a string")
  end.

(** One step of OrdinaryToPrimitive: call the method if there is one
    and keep its result if it is a primitive. *)
Definition try_method (v : value) (k : string) : completion (option value) :=
  match get v k with
  | Throw e => Throw e
  | Normal f =>
      if is_function f then
        match call f v with
        | Throw e => Throw e
        | Normal r => Normal (if is_primitive r then Some r else None)
        end
      else Normal None
  end.

(** ToPrimitive without a hint: [valueOf], then [toString]. *)
Definition to_primitive (v : value) : completion value :=
  if is_primitive v then Normal v
  else
    match try_method v "valueOf" with
    | Throw e => Throw e
    | Normal (Some r) => Normal r
    | Normal None =>
        match try_method v "toString" with
        | Throw e => Throw e
        | Normal (Some r) => Normal r
        | Normal None =>
            Throw (TypeError "Cannot convert object to primitive value")
        end
    end.

(** ['' + v], the first statement of [escapeHtml] *)
Definition concat_empty (v : value) : completion string :=
  match to_primitive v with
  | Throw e => Throw e
  | Normal p => primitive_to_string p
  end.

Definition option_value (o : option string) : value :=
  match o with
  | Some s => VString s
  | None => VUndefined
  end.

(** *** createHtmlDocument *)

Definition html_body (escaped : string) : string :=
  replace_all DOUBLE_SPACE_REGEXP " &nbsp;"
    (replace_all NEWLINE_REGEXP "<br>" escaped).

Definition createHtmlDocument (message : value) : completion string :=
  match concat_empty message with
  | Throw e => Throw e
  | Normal str =>
      let body := html_body (escapeHtml str) in
      Normal (html_prefix ++ body ++ html_suffix)%string
  end.

(** *** Reading the error value

    Every read of a property of the error value is recorded; since
    properties are data properties, the repeated reads of one
    condition see one value. *)

Definition err_get (err : value) (k : string) : M value :=
  log (EvErrGet k);; lift (get err k).

(** [typeof err.k === 'number' && err.k >= 400 && err.k < 600], and
    [err.k] once more for the [return]. *)
Definition valid_status (err : value) (k : string) : M (option number) :=
  v <- err_get err k;;
  match v with
  | VNumber n =>
      _ <- err_get err k;;
      if Num.ge n (Num.of_Z 400) then
        _ <- err_get err k;;
        if Num.lt n (Num.of_Z 600) then
          _ <- err_get err k;;
          ret (Some n)
        else ret None
      else ret None
  | _ => ret None
  end.

(** *** getErrorStatusCode: [None] is [undefined] *)
Definition getErrorStatusCode (err : value) : M (option number) :=
  (* check err.status *)
  s <- valid_status err "status";;
  match s with
  | Some n => ret (Some n)
  | None =>
      (* check err.statusCode *)
      valid_status err "statusCode"
  end.

(** The loop of [getErrorHeaders]: [headers[key] = err.headers[key]]. *)
Fixpoint copy_headers (err : value) (keys : list string)
  (headers : list (string * value)) : M (list (string * value)) :=
  match keys with
  | [] => ret headers
  | key :: rest =>
      h <- err_get err "headers";;
      v <- lift (get h key);;
      copy_headers err rest (set_prop key v headers)
  end.

(** *** getErrorHeaders *)
Definition getErrorHeaders (err : value) : M value :=
  h <- err_get err "headers";;
  if negb (truthy h) then ret VUndefined
  else
    h' <- err_get err "headers";;
    if negb (String.eqb (typeof h') "object") then ret VUndefined
    else
      h'' <- err_get err "headers";;
      let keys := Object_keys h'' in
      headers <- copy_headers err keys [];;
      (* Object.create(null): no prototype *)
      ret (VObject headers []).

(** *** getErrorMessage *)
Definition getErrorMessage (err : value) (status : number) (env : value)
  : M value :=
  msg <-
    (if negb (strict_eq_string env "production") then
       (* use err.stack, which typically includes err.message *)
       stack <- err_get err "stack";;
       (* fallback to err.toString() when possible *)
       if negb (truthy stack) then
         ts <- err_get err "toString";;
         if is_function ts then
           f <- err_get err "toString";;
           log (EvErrCall "toString");;
           lift (call f err)
         else ret stack
       else ret stack
     else ret VUndefined);;
  ret (js_or msg
         (js_or (option_value (statuses_message status))
                (VString (number_to_string status)))).

(** *** getResourceName *)
Definition getResourceName (req : request) : value :=
  match parseUrl_original req with
  | Throw _ => VString "resource"
  | Normal parsed =>
      match get parsed "pathname" with
      | Throw _ => VString "resource"
      | Normal pathname => pathname
      end
  end.

(** *** getResponseStatusCode *)
Definition getResponseStatusCode (res : response) : number :=
  match res_statusCode res with
  | VNumber status =>
      (* default status code to 500 if outside valid range *)
      if Num.lt status (Num.of_Z 400) || Num.gt status (Num.of_Z 599)
      then Num.of_Z 500
      else status
  | _ => Num.of_Z 500
  end.

(** *** headersSent *)
Definition headersSent (res : response) : bool :=
  match res_headersSent res with
  | VBool b => b
  | _ => truthy (res__header res)
  end.

(** *** setHeaders *)
Fixpoint setHeaders_loop (headers : value) (keys : list string) : M unit :=
  match keys with
  | [] => ret tt
  | key :: rest =>
      v <- lift (get headers key);;
      log (EvSetHeader key v);;
      setHeaders_loop headers rest
  end.

Definition setHeaders (headers : value) : M unit :=
  if negb (truthy headers) then ret tt
  else setHeaders_loop headers (Object_keys headers).

(** [statuses.message[status] || String(status)] *)
Definition reason_phrase (status : number) : value :=
  js_or (option_value (statuses_message status))
        (VString (number_to_string status)).

(** *** sendResponse: its closure [write] *)
Definition write (status : number) (headers : value) (message : value)
  : M unit :=
  (* response body *)
  body <- lift (createHtmlDocument message);;
  (* response status *)
  res <- get_res;;
  put_res (mkResponse (VNumber status) (res_statusMessage res)
             (res_headersSent res) (res__header res));;
  log (EvSetStatusCode status);;
  res <- get_res;;
  put_res (mkResponse (res_statusCode res) (reason_phrase status)
             (res_headersSent res) (res__header res));;
  log (EvSetStatusMessage (reason_phrase status));;
  (* response headers *)
  setHeaders headers;;
  (* security headers *)
  log (EvSetHeader "Content-Security-Policy" (VString "default-src 'none'"));;
  log (EvSetHeader "X-Content-Type-Options" (VString "nosniff"));;
  (* standard headers *)
  log (EvSetHeader "Content-Type" (VString "text/html; charset=utf-8"));;
  log (EvSetHeader "Content-Length" (VNumber (Buffer_byteLength body)));;
  req <- get_req;;
  if String.eqb (req_method req) "HEAD" then log (EvEnd None)
  else log (EvEnd (Some body)).

(** [unpipe(req)] and [req.resume()] *)
Definition unpipe : M unit :=
  req <- get_req;;
  put_req (mkRequest (req_method req) (req_url req) (req_originalUrl req)
             (req_finished req) false (req_flowing req));;
  log EvUnpipe.

Definition resume : M unit :=
  req <- get_req;;
  put_req (mkRequest (req_method req) (req_url req) (req_originalUrl req)
             (req_finished req) (req_piped req) true);;
  log EvResume.

(** [onFinished(req, listener)] on a request that is not finished *)
Definition onFinished (l : listener) : M unit :=
  add_listener l;; log (EvOnFinished l).

(** *** sendResponse *)
Definition sendResponse (status : number) (headers : value)
  (message : value) : M unit :=
  req <- get_req;;
  if req_finished req then write status headers message
  else
    (* unpipe everything from the request *)
    unpipe;;
    (* flush the request *)
    onFinished (WriteListener status headers message);;
    resume.

(** *** The exported function *)

Definition dispatch_payload (req : request) : value :=
  VObject [("method", VString (req_method req));
           ("url", VString (encodeUrl (getResourceName req)))]
          [Object_prototype].

(** The status, the headers and the message of an invocation. *)
Definition derive (env : value) (err : value)
  : M (number * value * value) :=
  (* unhandled error *)
  if truthy err then
    (* respect status code from error *)
    s <- getErrorStatusCode err;;
    sh <- match s with
          | None =>
              (* fallback to status code on response *)
              res <- get_res;;
              ret (getResponseStatusCode res, VUndefined)
          | Some status =>
              (* respect headers from error *)
              headers <- getErrorHeaders err;;
              ret (status, headers)
          end;;
    (* get error message *)
    msg <- getErrorMessage err (fst sh) env;;
    ret (fst sh, snd sh, msg)
  else
    (* not found *)
    req <- get_req;;
    ret (Num.of_Z 404, VUndefined,
         VString ("Cannot " ++ req_method req ++ " " ++
                  encodeUrl (getResourceName req))).

(** [opts.app.emit('errorDispatch', {method, url})] when there is an
    app with an [emit] function *)
Definition notify (opts : options) : M unit :=
  req <- get_req;;
  if truthy (opt_app opts) then
    emit <- lift (get (opt_app opts) "emit");;
    if is_function emit then
      log (EvEmit "errorDispatch" (dispatch_payload req))
    else ret tt
  else ret tt.

(** The function returned by the module: [function (err) { ... }]. *)
Definition finish (env : value) (opts : options) (err : value) : M unit :=
  res <- get_res;;
  (* cannot actually respond *)
  if headersSent res then
    log (EvDebug "cannot %d after headers sent" [VUndefined]);;
    log (EvEnd (Some ""))
  else
    r <- derive env err;;
    let '(status, headers, msg) := r in
    req <- get_req;;
    log (EvDebug "error dispatching %s %s"
           [VString (req_method req);
            VString (encodeUrl (getResourceName req))]);;
    notify opts;;
    log (EvDebug "default %s" [VNumber status]);;
    (* schedule onerror callback *)
    (if truthy err && truthy (opt_onerror opts)
     then log (EvDefer (opt_onerror opts) err)
     else ret tt);;
    (* send response *)
    sendResponse status headers msg.

(** [module.exports = (req, res, options) => ...]; [node_env] is
    [process.env.NODE_ENV]. *)
Definition finalhandler (node_env : value) (options_arg : option options)
  : value -> M unit :=
  let opts := match options_arg with Some o => o | None => no_options end in
  (* get environment *)
  let env := js_or (opt_env opts) (js_or node_env (VString "development")) in
  finish env opts.

(** *** The environment: the request stream finishes

    The listeners registered by [onFinished] run once, in order. *)
Fixpoint run_listeners (ls : list listener) : M unit :=
  match ls with
  | [] => ret tt
  | WriteListener status headers message :: rest =>
      write status headers message;;
      run_listeners rest
  end.

Definition request_finishes : M unit :=
  fun w =>
    let req := w_req w in
    run_listeners (w_listeners w)
      (mkWorld (mkRequest (req_method req) (req_url req)
                  (req_originalUrl req) true (req_piped req)
                  (req_flowing req))
               (w_res w) [] (w_trace w ++ [EvRequestFinished])).

(** ** The handler where reads and calls can throw

    The functions of [index.js] once more, now with every read of a
    property of the error value, of its headers and of the app going
    through [read], and every call on a collaborator through [attempt]:
    nothing in the source catches what these throw.  The assignments to
    [res.statusCode] and [res.statusMessage] and the reads of the
    object that [getErrorHeaders] built are as before.  With
    [no_faults] these are the functions above. *)

Definition err_get_with (f : faults) (err : value) (k : string) : M value :=
  log (EvErrGet k);; lift (read f err k).

Definition valid_status_with (f : faults) (err : value) (k : string)
  : M (option number) :=
  v <- err_get_with f err k;;
  match v with
  | VNumber n =>
      _ <- err_get_with f err k;;
      if Num.ge n (Num.of_Z 400) then
        _ <- err_get_with f err k;;
        if Num.lt n (Num.of_Z 600) then
          _ <- err_get_with f err k;;
          ret (Some n)
        else ret None
      else ret None
  | _ => ret None
  end.

Definition getErrorStatusCode_with (f : faults) (err : value)
  : M (option number) :=
  s <- valid_status_with f err "status";;
  match s with
  | Some n => ret (Some n)
  | None => valid_status_with f err "statusCode"
  end.

Fixpoint copy_headers_with (f : faults) (err : value) (keys : list string)
  (headers : list (string * value)) : M (list (string * value)) :=
  match keys with
  | [] => ret headers
  | key :: rest =>
      h <- err_get_with f err "headers";;
      v <- lift (read f h key);;
      copy_headers_with f err rest (set_prop key v headers)
  end.

Definition getErrorHeaders_with (f : faults) (err : value) : M value :=
  h <- err_get_with f err "headers";;
  if negb (truthy h) then ret VUndefined
  else
    h' <- err_get_with f err "headers";;
    if negb (String.eqb (typeof h') "object") then ret VUndefined
    else
      h'' <- err_get_with f err "headers";;
      let keys := Object_keys h'' in
      headers <- copy_headers_with f err keys [];;
      ret (VObject headers []).

Definition getErrorMessage_with (f : faults) (err : value) (status : number)
  (env : value) : M value :=
  msg <-
    (if negb (strict_eq_string env "production") then
       stack <- err_get_with f err "stack";;
       if negb (truthy stack) then
         ts <- err_get_with f err "toString";;
         if is_function ts then
           m <- err_get_with f err "toString";;
           log (EvErrCall "toString");;
           lift (call m err)
         else ret stack
       else ret stack
     else ret VUndefined);;
  ret (js_or msg
         (js_or (option_value (statuses_message status))
                (VString (number_to_string status)))).

Fixpoint setHeaders_loop_with (f : faults) (headers : value)
  (keys : list string) : M unit :=
  match keys with
  | [] => ret tt
  | key :: rest =>
      v <- lift (get headers key);;
      perform f (EvSetHeader key v);;
      setHeaders_loop_with f headers rest
  end.

Definition setHeaders_with (f : faults) (headers : value) : M unit :=
  if negb (truthy headers) then ret tt
  else setHeaders_loop_with f headers (Object_keys headers).

Definition write_with (f : faults) (status : number) (headers : value)
  (message : value) : M unit :=
  body <- lift (createHtmlDocument message);;
  res <- get_res;;
  put_res (mkResponse (VNumber status) (res_statusMessage res)
             (res_headersSent res) (res__header res));;
  log (EvSetStatusCode status);;
  res <- get_res;;
  put_res (mkResponse (res_statusCode res) (reason_phrase status)
             (res_headersSent res) (res__header res));;
  log (EvSetStatusMessage (reason_phrase status));;
  setHeaders_with f headers;;
  perform f (EvSetHeader "Content-Security-Policy"
               (VString "default-src 'none'"));;
  perform f (EvSetHeader "X-Content-Type-Options" (VString "nosniff"));;
  perform f (EvSetHeader "Content-Type" (VString "text/html; charset=utf-8"));;
  perform f (EvSetHeader "Content-Length" (VNumber (Buffer_byteLength body)));;
  req <- get_req;;
  if String.eqb (req_method req) "HEAD" then perform f (EvEnd None)
  else perform f (EvEnd (Some body)).

Definition sendResponse_with (f : faults) (status : number) (headers : value)
  (message : value) : M unit :=
  req <- get_req;;
  if req_finished req then write_with f status headers message
  else
    attempt f EvUnpipe unpipe;;
    attempt f (EvOnFinished (WriteListener status headers message))
      (onFinished (WriteListener status headers message));;
    attempt f EvResume resume.

Definition derive_with (f : faults) (env : value) (err : value)
  : M (number * value * value) :=
  if truthy err then
    s <- getErrorStatusCode_with f err;;
    sh <- match s with
          | None =>
              res <- get_res;;
              ret (getResponseStatusCode res, VUndefined)
          | Some status =>
              headers <- getErrorHeaders_with f err;;
              ret (status, headers)
          end;;
    msg <- getErrorMessage_with f err (fst sh) env;;
    ret (fst sh, snd sh, msg)
  else
    req <- get_req;;
    ret (Num.of_Z 404, VUndefined,
         VString ("Cannot " ++ req_method req ++ " " ++
                  encodeUrl (getResourceName req))).

Definition notify_with (f : faults) (opts : options) : M unit :=
  req <- get_req;;
  if truthy (opt_app opts) then
    emit <- lift (read f (opt_app opts) "emit");;
    if is_function emit then
      perform f (EvEmit "errorDispatch" (dispatch_payload req))
    else ret tt
  else ret tt.

Definition finish_with (f : faults) (env : value) (opts : options)
  (err : value) : M unit :=
  res <- get_res;;
  if headersSent res then
    perform f (EvDebug "cannot %d after headers sent" [VUndefined]);;
    perform f (EvEnd (Some ""))
  else
    r <- derive_with f env err;;
    let '(status, headers, msg) := r in
    req <- get_req;;
    perform f (EvDebug "error dispatching %s %s"
                 [VString (req_method req);
                  VString (encodeUrl (getResourceName req))]);;
    notify_with f opts;;
    perform f (EvDebug "default %s" [VNumber status]);;
    (if truthy err && truthy (opt_onerror opts)
     then perform f (EvDefer (opt_onerror opts) err)
     else ret tt);;
    sendResponse_with f status headers msg.

Definition finalhandler_with (f : faults) (node_env : value)
  (options_arg : option options) : value -> M unit :=
  let opts := match options_arg with Some o => o | None => no_options end in
  let env := js_or (opt_env opts) (js_or node_env (VString "development")) in
  finish_with f env opts.

Fixpoint run_listeners_with (f : faults) (ls : list listener) : M unit :=
  match ls with
  | [] => ret tt
  | WriteListener status headers message :: rest =>
      write_with f status headers message;;
      run_listeners_with f rest
  end.

Definition request_finishes_with (f : faults) : M unit :=
  fun w =>
    let req := w_req w in
    run_listeners_with f (w_listeners w)
      (mkWorld (mkRequest (req_method req) (req_url req)
                  (req_originalUrl req) true (req_piped req)
                  (req_flowing req))
               (w_res w) [] (w_trace w ++ [EvRequestFinished])).

(** ** What a run does, as functions of its inputs

    The results and the events of the functions above, written as pure
    functions of the error value, the request and the response; the
    lemmas below prove that the handler computes them. *)

(** The world after the events [evs] were recorded. *)
Definition happens (evs : list event) (w : world) : world :=
  mkWorld (w_req w) (w_res w) (w_listeners w) (w_trace w ++ evs).

(** [v.k] for a value that is not [undefined] or [null] *)
Definition lookup (v : value) (k : string) : value :=
  match get v k with
  | Normal x => x
  | Throw _ => VUndefined
  end.

(** The number a status-like attribute contributes, if any. *)
Definition accepted (v : value) : option number :=
  match v with
  | VNumber n =>
      if Num.ge n (Num.of_Z 400) && Num.lt n (Num.of_Z 600)
      then Some n else None
  | _ => None
  end.

(** How often the attribute is read while it is examined. *)
Definition status_reads (k : string) (v : value) : list event :=
  match v with
  | VNumber n =>
      if Num.ge n (Num.of_Z 400) then
        if Num.lt n (Num.of_Z 600) then repeat (EvErrGet k) 4
        else repeat (EvErrGet k) 3
      else repeat (EvErrGet k) 2
  | _ => [EvErrGet k]
  end.

(** The status the error itself provides: [err.status] first. *)
Definition error_status (err : value) : option number :=
  match accepted (lookup err "status") with
  | Some n => Some n
  | None => accepted (lookup err "statusCode")
  end.

Definition error_status_reads (err : value) : list event :=
  status_reads "status" (lookup err "status") ++
  match accepted (lookup err "status") with
  | Some _ => []
  | None => status_reads "statusCode" (lookup err "statusCode")
  end.

(** The table built by the loop of [getErrorHeaders]. *)
Fixpoint copied (h : value) (keys : list string) (acc : list (string * value))
  : list (string * value) :=
  match keys with
  | [] => acc
  | key :: rest => copied h rest (set_prop key (lookup h key) acc)
  end.

(** A genuine object: truthy and of type "object". *)
Definition genuine_object (h : value) : bool :=
  truthy h && String.eqb (typeof h) "object".

Definition error_headers (err : value) : value :=
  let h := lookup err "headers" in
  if genuine_object h then VObject (copied h (Object_keys h) []) []
  else VUndefined.

Definition error_headers_reads (err : value) : list event :=
  let h := lookup err "headers" in
  if negb (truthy h) then [EvErrGet "headers"]
  else if negb (String.eqb (typeof h) "object")
       then repeat (EvErrGet "headers") 2
       else repeat (EvErrGet "headers") (3 + length (Object_keys h)).

(** The events of one kind, in order. *)
Fixpoint select {A : Type} (f : event -> option A) (evs : list event)
  : list A :=
  match evs with
  | [] => []
  | e :: rest =>
      match f e with
      | Some a => a :: select f rest
      | None => select f rest
      end
  end.

(** The headers set on the response. *)
Definition applied : list event -> list (string * value) :=
  select (fun e => match e with EvSetHeader k v => Some (k, v) | _ => None end).

(** The status codes assigned to the response. *)
Definition written_statuses : list event -> list number :=
  select (fun e => match e with EvSetStatusCode s => Some s | _ => None end).

(** The events emitted on the app. *)
Definition emitted : list event -> list (string * value) :=
  select (fun e => match e with EvEmit n p => Some (n, p) | _ => None end).

(** The chunks the response was ended with. *)
Definition ended : list event -> list (option string) :=
  select (fun e => match e with EvEnd c => Some c | _ => None end).

(** The reads and calls on the error value. *)
Definition is_read (e : event) : Prop :=
  match e with
  | EvErrGet _ | EvErrCall _ => True
  | _ => False
  end.

(** What [getErrorMessage] returns or throws. *)
Definition error_message (err : value) (status : number) (env : value)
  : completion value :=
  if strict_eq_string env "production" then Normal (reason_phrase status)
  else if truthy (lookup err "stack")
  then Normal (js_or (lookup err "stack") (reason_phrase status))
  else if is_function (lookup err "toString")
  then match call (lookup err "toString") err with
       | Normal m => Normal (js_or m (reason_phrase status))
       | Throw e => Throw e
       end
  else Normal (reason_phrase status).

Definition error_message_reads (err : value) (env : value) : list event :=
  if strict_eq_string env "production" then []
  else if truthy (lookup err "stack") then [EvErrGet "stack"]
  else if is_function (lookup err "toString")
  then [EvErrGet "stack"; EvErrGet "toString"; EvErrGet "toString";
        EvErrCall "toString"]
  else [EvErrGet "stack"; EvErrGet "toString"].

(** The response once [write] has set its status. *)
Definition with_status (status : number) (res : response) : response :=
  mkResponse (VNumber status) (reason_phrase status)
             (res_headersSent res) (res__header res).

Definition header_events (headers : value) : list event :=
  if truthy headers
  then map (fun k => EvSetHeader k (lookup headers k)) (Object_keys headers)
  else [].

(** What [write] does once the document exists. *)
Definition write_events (method : string) (status : number)
  (headers : value) (body : string) : list event :=
  [EvSetStatusCode status; EvSetStatusMessage (reason_phrase status)] ++
  header_events headers ++
  [EvSetHeader "Content-Security-Policy" (VString "default-src 'none'");
   EvSetHeader "X-Content-Type-Options" (VString "nosniff");
   EvSetHeader "Content-Type" (VString "text/html; charset=utf-8");
   EvSetHeader "Content-Length" (VNumber (Buffer_byteLength body));
   EvEnd (if String.eqb method "HEAD" then None else Some body)].

(** The request once [sendResponse] has detached and resumed it. *)
Definition drained (req : request) : request :=
  mkRequest (req_method req) (req_url req) (req_originalUrl req)
            (req_finished req) false true.

Definition derived_status (err : value) (res : response) : number :=
  if truthy err then
    match error_status err with
    | Some n => n
    | None => getResponseStatusCode res
    end
  else Num.of_Z 404.

Definition derived_headers (err : value) : value :=
  if truthy err then
    match error_status err with
    | Some _ => error_headers err
    | None => VUndefined
    end
  else VUndefined.

Definition derived_message (env err : value) (w : world)
  : completion value :=
  if truthy err
  then error_message err (derived_status err (w_res w)) env
  else Normal (VString ("Cannot " ++ req_method (w_req w) ++ " " ++
                        encodeUrl (getResourceName (w_req w)))).

Definition derive_reads (env err : value) : list event :=
  if truthy err then
    error_status_reads err ++
    match error_status err with
    | Some _ => error_headers_reads err
    | None => []
    end ++
    error_message_reads err env
  else [].

Definition has_emit (opts : options) : bool :=
  truthy (opt_app opts) && is_function (lookup (opt_app opts) "emit").

Definition notify_events (opts : options) (req : request) : list event :=
  if has_emit opts
  then [EvEmit "errorDispatch" (dispatch_payload req)]
  else [].

(** What happens between the derivation and the response. *)
Definition dispatch_events (opts : options) (err : value) (req : request)
  (status : number) : list event :=
  [EvDebug "error dispatching %s %s"
     [VString (req_method req); VString (encodeUrl (getResourceName req))]] ++
  notify_events opts req ++
  [EvDebug "default %s" [VNumber status]] ++
  (if truthy err && truthy (opt_onerror opts)
   then [EvDefer (opt_onerror opts) err] else []).

(** One invocation; then, if the request stream had not finished yet,
    it finishes and the registered listeners run. *)
Definition serve (env : value) (opts : options) (err : value) : M unit :=
  finish env opts err;;
  req <- get_req;;
  if req_finished req then ret tt else request_finishes.

Definition finished (req : request) : request :=
  mkRequest (req_method req) (req_url req) (req_originalUrl req)
            true (req_piped req) (req_flowing req).

(** What [sendResponse] and the end of the stream add to the trace. *)
Definition sending_events (req : request) (status : number)
  (headers message : value) (body : string) : list event :=
  if req_finished req
  then write_events (req_method req) status headers body
  else [EvUnpipe; EvOnFinished (WriteListener status headers message);
        EvResume; EvRequestFinished] ++
       write_events (req_method req) status headers body.

Definition served_request (req : request) : request :=
  if req_finished req then req else finished (drained req).

Definition standard_headers (body : string) : list (string * value) :=
  [("Content-Security-Policy", VString "default-src 'none'");
   ("X-Content-Type-Options", VString "nosniff");
   ("Content-Type", VString "text/html; charset=utf-8");
   ("Content-Length", VNumber (Buffer_byteLength body))].

(** The canonical reason phrase of a status, or the status as a string
    when the table has no phrase for it (or an empty one). *)
Definition canonical_message (status : number) : value :=
  match statuses_message status with
  | Some phrase =>
      if String.eqb phrase "" then VString (number_to_string status)
      else VString phrase
  | None => VString (number_to_string status)
  end.

(** The error gives no detail: no stack, and no [toString] function or
    one that returns a falsy value. *)
Definition no_detail (err : value) : Prop :=
  truthy (lookup err "stack") = false /\
  (is_function (lookup err "toString") = false \/
   exists m, call (lookup err "toString") err = Normal m /\ truthy m = false).

(** The document around an escaped message. *)
Definition html_document (message : string) : string :=
  html_prefix ++ html_body (escapeHtml message) ++ html_suffix.

(** The events by which the response itself is written. *)
Definition is_response_write (e : event) : Prop :=
  match e with
  | EvSetStatusCode _ | EvSetStatusMessage _ | EvSetHeader _ _ | EvEnd _ => True
  | _ => False
  end.

(** The value can be concatenated to a string. *)
Definition stringifiable (v : value) : Prop :=
  exists s, concat_empty v = Normal s.

(** What the derivation of the message uses of the error behaves: outside
    production, a truthy stack can be concatenated to a string, and
    without one a [toString] function returns, and returns a value that
    is falsy or can be concatenated to a string. *)
Definition well_behaved (env err : value) : Prop :=
  strict_eq_string env "production" = true \/
  (truthy (lookup err "stack") = true /\ stringifiable (lookup err "stack")) \/
  (truthy (lookup err "stack") = false /\
   (is_function (lookup err "toString") = false \/
    exists m, call (lookup err "toString") err = Normal m /\
              (truthy m = true -> stringifiable m))).

(** An object without a prototype and without [stack] and [toString]
    of its own. *)
Definition bare_object (err : value) : Prop :=
  exists own, err = VObject own [] /\
              assoc "stack" own = None /\ assoc "toString" own = None.

(** The message escaping in the words of the specification: every
    newline character becomes [<br>]. *)
Fixpoint newlines_to_br (s : string) : string :=
  match s with
  | EmptyString => EmptyString
  | String c rest =>
      if Ascii.eqb c newline then "<br>" ++ newlines_to_br rest
      else String c (newlines_to_br rest)
  end.

(** Reading from the left, every two consecutive spaces become a space
    and the entity [&nbsp;]. *)
Fixpoint double_spaces_to_nbsp (s : string) : string :=
  match s with
  | EmptyString => EmptyString
  | String a tail =>
      match tail with
      | String b rest =>
          if Ascii.eqb a space && Ascii.eqb b space
          then " &nbsp;" ++ double_spaces_to_nbsp rest
          else String a (double_spaces_to_nbsp tail)
      | EmptyString => String a EmptyString
      end
  end.

(** [n] copies of a string. *)
Fixpoint copies (n : nat) (s : string) : string :=
  match n with
  | O => EmptyString
  | S k => s ++ copies k s
  end.

Definition starts_with_space (s : string) : bool :=
  match s with
  | String c _ => Ascii.eqb c space
  | EmptyString => false
  end.

(** ** Further projections and predicates *)

(** The callbacks scheduled with [defer], with the error they get. *)
Definition deferred : list event -> list (value * value) :=
  select (fun e => match e with EvDefer c err => Some (c, err) | _ => None end).

(** The properties of the error that were read, and its methods that
    were called. *)
Definition consulted : list event -> list string :=
  select (fun e => match e with EvErrGet k => Some k | _ => None end).

Definition called : list event -> list string :=
  select (fun e => match e with EvErrCall k => Some k | _ => None end).

(** The string contains a newline character. *)
Fixpoint has_newline (s : string) : bool :=
  match s with
  | EmptyString => false
  | String c rest => Ascii.eqb c newline || has_newline rest
  end.

(** The string contains two consecutive spaces. *)
Fixpoint has_double_space (s : string) : bool :=
  match s with
  | EmptyString => false
  | String a tail =>
      (Ascii.eqb a space && starts_with_space tail) || has_double_space tail
  end.

(** [opts.env || process.env.NODE_ENV || 'development'] and
    [options || {}], as the exported function computes them. *)
Definition given_options (options_arg : option options) : options :=
  match options_arg with
  | Some o => o
  | None => no_options
  end.

Definition resolved_env (node_env : value) (options_arg : option options)
  : value :=
  js_or (opt_env (given_options options_arg))
        (js_or node_env (VString "development")).

(** One invocation of the function the module returns; then, if the
    request stream had not finished yet, it finishes. *)
Definition handle (node_env : value) (options_arg : option options)
  (err : value) : M unit :=
  finalhandler node_env options_arg err;;
  req <- get_req;;
  if req_finished req then ret tt else request_finishes.

(** Header names are compared without regard to case, as the response
    stores them. *)
Definition lower (c : ascii) : ascii :=
  let n := nat_of_ascii c in
  if ((65 <=? n) && (n <=? 90))%nat then ascii_of_nat (n + 32) else c.

Fixpoint lowercase (s : string) : string :=
  match s with
  | EmptyString => EmptyString
  | String c rest => String (lower c) (lowercase rest)
  end.

Definition same_header (a b : string) : bool :=
  String.eqb (lowercase a) (lowercase b).

(** The value a response holds for a header after a sequence of
    [setHeader] calls: the last one set under that name. *)
Definition final_header (name : string) (headers : list (string * value))
  : option value :=
  option_map snd (find (fun kv => same_header (fst kv) name) (rev headers)).

(** The handler was built for production: [options.env] is
    "production", or it is falsy and [NODE_ENV] is "production". *)
Definition production_mode (node_env : value) (options_arg : option options)
  : Prop :=
  strict_eq_string (opt_env (given_options options_arg)) "production" = true \/
  (truthy (opt_env (given_options options_arg)) = false /\
   strict_eq_string node_env "production" = true).

(** ** Runs in which nothing fails *)

(** One invocation and the end of the request stream, where reads and
    calls can throw. *)
Definition serve_with (f : faults) (env : value) (opts : options)
  (err : value) : M unit :=
  finish_with f env opts err;;
  req <- get_req;;
  if req_finished req then ret tt else request_finishes_with f.

Definition handle_with (f : faults) (node_env : value)
  (options_arg : option options) (err : value) : M unit :=
  finalhandler_with f node_env options_arg err;;
  req <- get_req;;
  if req_finished req then ret tt else request_finishes_with f.

(** No getter of the value throws: its properties are data properties,
    or accessors that return. *)
Definition plain (f : faults) (v : value) : Prop :=
  forall k : string, getter_throws f v k = None.

(** The collaborators return from each of these calls. *)
Definition accepts (f : faults) (evs : list event) : Prop :=
  forall e : event, In e evs -> call_throws f e = None.

(** What a computation added to the trace. *)
Definition added (w w' : world) : list event :=
  skipn (length (w_trace w)) (w_trace w').

(** Nothing fails in an invocation: no getter of the error, of its
    headers or of the app throws, and the collaborators return from
    every call that the invocation and the listener it registers make,
    which are the calls recorded when nothing fails. *)
Definition undisturbed (f : faults) (env : value) (opts : options)
  (err : value) (w : world) : Prop :=
  plain f err /\ plain f (lookup err "headers") /\ plain f (opt_app opts) /\
  accepts f (added w (snd (serve env opts err w))).

(** [m'] does what [m] does from [w], provided the collaborators
    return from the calls [m] records; [m] only adds to the trace. *)
Definition follows {A : Type} (f : faults) (m' m : M A) (w : world) : Prop :=
  (exists evs : list event, w_trace (snd (m w)) = w_trace w ++ evs) /\
  (accepts f (added w (snd (m w))) -> m' w = m w).

(** * Properties *)

(** ** Numbers: the comparisons against the bounds *)

Lemma ge_400_lt_600_range (n : number) :
  Num.ge n (Num.of_Z 400) && Num.lt n (Num.of_Z 600) = true <->
  Num.in_range 400 n 600 true.
Proof.
  destruct n as [| | |q]; unfold Num.ge, Num.lt;
    [simpl; split; [discriminate | tauto] .. | ].
  cbn [Num.compare Num.of_Z Num.in_range].
  change (inject_Z 400) with 400%Q. change (inject_Z 600) with 600%Q.
  rewrite andb_true_iff.
  split.
  - intros [Hge Hlt]. split.
    + destruct (Qcompare q 400) eqn:E; try discriminate.
      * apply Qeq_alt in E. rewrite E. apply Qle_refl.
      * apply Qgt_alt in E. apply Qlt_le_weak. exact E.
    + destruct (Qcompare q 600) eqn:E; try discriminate.
      apply Qlt_alt in E. exact E.
  - intros [Hge Hlt]. split.
    + destruct (Qcompare q 400) eqn:E; try reflexivity.
      apply Qlt_alt in E. exfalso. apply (Qlt_not_le _ _ E). exact Hge.
    + destruct (Qcompare q 600) eqn:E; try reflexivity; exfalso.
      * apply Qeq_alt in E. rewrite E in Hlt. exact (Qlt_irrefl _ Hlt).
      * apply Qgt_alt in E. exact (Qlt_irrefl _ (Qlt_trans _ _ _ Hlt E)).
Qed.

(** ** What an invocation adds to the trace *)

Lemma happens_nil (w : world) : happens [] w = w.
Proof. destruct w; unfold happens; simpl. now rewrite app_nil_r. Qed.

Lemma happens_app (a b : list event) (w : world) :
  happens b (happens a w) = happens (a ++ b) w.
Proof. unfold happens; simpl. now rewrite app_assoc. Qed.

Lemma log_happens (e : event) (w : world) :
  log e w = (Normal tt, happens [e] w).
Proof. reflexivity. Qed.

Lemma get_truthy (v : value) (k : string) :
  truthy v = true -> get v k = Normal (lookup v k).
Proof. destruct v; simpl; try discriminate; reflexivity. Qed.

Lemma err_get_run (err : value) (k : string) (w : world) :
  truthy err = true ->
  err_get err k w = (Normal (lookup err k), happens [EvErrGet k] w).
Proof.
  intros H. unfold err_get, bind, lift. rewrite log_happens.
  now rewrite (get_truthy _ _ H).
Qed.

(** ** The status of the error *)

Ltac read_step H :=
  cbv beta iota; rewrite (err_get_run _ _ _ H); cbv beta iota;
  rewrite ?happens_app.

Lemma valid_status_run (err : value) (k : string) (w : world) :
  truthy err = true ->
  valid_status err k w =
    (Normal (accepted (lookup err k)), happens (status_reads k (lookup err k)) w).
Proof.
  intros H. unfold valid_status, bind.
  rewrite (err_get_run _ _ _ H).
  unfold accepted, status_reads.
  destruct (lookup err k) as [| | |n| | | | | |]; try reflexivity.
  read_step H.
  destruct (Num.ge n (Num.of_Z 400)); cbv beta iota; [|reflexivity].
  read_step H.
  destruct (Num.lt n (Num.of_Z 600)); cbv beta iota; [|reflexivity].
  read_step H.
  reflexivity.
Qed.

Lemma getErrorStatusCode_run (err : value) (w : world) :
  truthy err = true ->
  getErrorStatusCode err w =
    (Normal (error_status err), happens (error_status_reads err) w).
Proof.
  intros H. unfold getErrorStatusCode, bind, error_status, error_status_reads.
  rewrite (valid_status_run _ _ _ H).
  destruct (accepted (lookup err "status")) as [n|].
  - now rewrite app_nil_r.
  - now rewrite (valid_status_run _ _ _ H), happens_app.
Qed.

Lemma accepted_in_range (v : value) (n : number) :
  accepted v = Some n <-> v = VNumber n /\ Num.in_range 400 n 600 true.
Proof.
  unfold accepted. split.
  - destruct v as [| | |m| | | | | |]; try discriminate.
    destruct (Num.ge m _ && Num.lt m _) eqn:E; [|discriminate].
    intros [= <-]. split; [reflexivity|]. now apply ge_400_lt_600_range.
  - intros [-> Hr]. apply ge_400_lt_600_range in Hr. now rewrite Hr.
Qed.

(** C1: [err.status] is examined before [err.statusCode].  When the
    primary attribute is a number in [400,600) it is the result and the
    only reads recorded are those of [status]: the secondary attribute
    is not read at all, whatever it holds.  When the primary attribute is
    absent or not such a number, the result is the secondary attribute
    if that one is a number in [400,600), and [undefined] otherwise. *)
Theorem primary_status_wins (err : value) (w : world) :
  truthy err = true ->
  (forall n : number,
      lookup err "status" = VNumber n ->
      Num.in_range 400 n 600 true ->
      getErrorStatusCode err w =
        (Normal (Some n), happens (repeat (EvErrGet "status") 4) w)) /\
  ((forall n : number,
       lookup err "status" = VNumber n -> ~ Num.in_range 400 n 600 true) ->
   fst (getErrorStatusCode err w) = Normal (accepted (lookup err "statusCode")) /\
   forall n : number,
     fst (getErrorStatusCode err w) = Normal (Some n) ->
     lookup err "statusCode" = VNumber n /\ Num.in_range 400 n 600 true).
Proof.
  intros H. rewrite (getErrorStatusCode_run _ _ H).
  unfold error_status, error_status_reads. split.
  - intros n Hs Hr.
    assert (A : accepted (lookup err "status") = Some n)
      by (apply accepted_in_range; auto).
    rewrite A. rewrite app_nil_r.
    rewrite Hs in *. unfold accepted in A. unfold status_reads.
    destruct (Num.ge n (Num.of_Z 400)); [|discriminate].
    destruct (Num.lt n (Num.of_Z 600)); [|discriminate].
    reflexivity.
  - intros Hinv.
    destruct (accepted (lookup err "status")) as [m|] eqn:A.
    + apply accepted_in_range in A. destruct A as [A1 A2].
      exfalso. exact (Hinv m A1 A2).
    + simpl. split; [reflexivity|].
      intros n [= E]. now apply accepted_in_range.
Qed.

(** ** The headers of the error *)

Lemma copy_headers_run (err : value) (keys : list string) :
  truthy err = true ->
  truthy (lookup err "headers") = true ->
  forall (acc : list (string * value)) (w : world),
    copy_headers err keys acc w =
      (Normal (copied (lookup err "headers") keys acc),
       happens (repeat (EvErrGet "headers") (length keys)) w).
Proof.
  intros H Hh. induction keys as [|key rest IH]; intros acc w.
  - simpl. now rewrite happens_nil.
  - cbn [copy_headers copied length repeat]. unfold bind.
    read_step H. unfold lift.
    rewrite (get_truthy _ key Hh). cbv beta iota.
    rewrite IH, happens_app. reflexivity.
Qed.

Lemma getErrorHeaders_run (err : value) (w : world) :
  truthy err = true ->
  getErrorHeaders err w =
    (Normal (error_headers err), happens (error_headers_reads err) w).
Proof.
  intros H. unfold getErrorHeaders, error_headers, error_headers_reads,
    genuine_object, bind.
  read_step H.
  destruct (truthy (lookup err "headers")) eqn:T; cbn [negb andb];
    cbv beta iota; [|reflexivity].
  read_step H.
  destruct (String.eqb (typeof (lookup err "headers")) "object");
    cbn [negb]; cbv beta iota; [|reflexivity].
  read_step H.
  rewrite (copy_headers_run _ _ H T). cbv beta iota.
  rewrite happens_app. reflexivity.
Qed.

Lemma genuine_object_inv (h : value) :
  genuine_object h = true -> exists own protos, h = VObject own protos.
Proof.
  unfold genuine_object.
  destruct h; simpl; rewrite ?andb_false_r; try discriminate; eauto.
Qed.

Lemma assoc_notin {A : Type} (k : string) (l : list (string * A)) :
  ~ In k (map fst l) -> assoc k l = None.
Proof.
  induction l as [|[k' v] l IH]; simpl; [reflexivity|].
  intros Hn. destruct (String.eqb_spec k k') as [->|Hne].
  - exfalso. apply Hn. now left.
  - apply IH. intros Hin. apply Hn. now right.
Qed.

Lemma assoc_app_notin {A : Type} (k : string) (l1 l2 : list (string * A)) :
  ~ In k (map fst l1) -> assoc k (l1 ++ l2) = assoc k l2.
Proof.
  induction l1 as [|[k' v] l1 IH]; simpl; [reflexivity|].
  intros Hn. destruct (String.eqb_spec k k') as [->|Hne].
  - exfalso. apply Hn. now left.
  - apply IH. intros Hin. apply Hn. now right.
Qed.

Lemma set_prop_notin (k : string) (v : value) (l : list (string * value)) :
  ~ In k (map fst l) -> set_prop k v l = l ++ [(k, v)].
Proof.
  induction l as [|[k' v'] l IH]; simpl; [reflexivity|].
  intros Hn. destruct (String.eqb_spec k k') as [->|Hne].
  - exfalso. apply Hn. now left.
  - f_equal. apply IH. intros Hin. apply Hn. now right.
Qed.

(** On an object whose keys are distinct the loop rebuilds the table of
    own properties, in order. *)
Lemma copied_own (own : list (string * value)) (protos : list (list (string * value))) :
  NoDup (map fst own) ->
  copied (VObject own protos) (map fst own) [] = own.
Proof.
  intros Hnd.
  enough (G : forall done todo,
             own = done ++ todo ->
             copied (VObject own protos) (map fst todo) done = own)
    by (apply (G [] own); reflexivity).
  intros done todo. revert done.
  induction todo as [|[k v] todo IH]; intros done E.
  - simpl. now rewrite app_nil_r in E.
  - cbn [map fst copied].
    assert (Hk : ~ In k (map fst done)).
    { rewrite E, map_app in Hnd. cbn [map fst] in Hnd.
      apply NoDup_remove_2 in Hnd. intros Hin. apply Hnd.
      apply in_or_app. now left. }
    assert (L : lookup (VObject own protos) k = v).
    { unfold lookup, get. cbn [chain_lookup].
      rewrite E, (assoc_app_notin _ _ _ Hk). simpl.
      now rewrite String.eqb_refl. }
    rewrite L, (set_prop_notin _ _ _ Hk).
    apply IH. rewrite E, <- app_assoc. reflexivity.
Qed.

(** ** Projections of the trace *)

Lemma select_app {A : Type} (f : event -> option A) (l1 l2 : list event) :
  select f (l1 ++ l2) = select f l1 ++ select f l2.
Proof.
  induction l1 as [|e l1 IH]; simpl; [reflexivity|].
  destruct (f e); simpl; now rewrite IH.
Qed.

Lemma select_reads {A : Type} (f : event -> option A) (l : list event) :
  (forall e, is_read e -> f e = None) ->
  Forall is_read l -> select f l = [].
Proof.
  intros Hf. induction 1 as [|e l He _ IH]; simpl; [reflexivity|].
  now rewrite (Hf e He).
Qed.

Lemma repeat_reads (k : string) (n : nat) :
  Forall is_read (repeat (EvErrGet k) n).
Proof. induction n; simpl; constructor; simpl; auto. Qed.

Lemma status_reads_are_reads (k : string) (v : value) :
  Forall is_read (status_reads k v).
Proof.
  unfold status_reads. destruct v; try (repeat constructor; fail).
  destruct (Num.ge _ _); [destruct (Num.lt _ _)|]; apply repeat_reads.
Qed.

Lemma error_status_reads_are_reads (err : value) :
  Forall is_read (error_status_reads err).
Proof.
  unfold error_status_reads. apply Forall_app. split.
  - apply status_reads_are_reads.
  - destruct (accepted _); [constructor | apply status_reads_are_reads].
Qed.

Lemma error_headers_reads_are_reads (err : value) :
  Forall is_read (error_headers_reads err).
Proof.
  unfold error_headers_reads.
  destruct (negb _); [repeat constructor|].
  destruct (negb _); apply repeat_reads.
Qed.

(** ** Runs of the handler *)

(** *** The message of the error *)

Lemma getErrorMessage_run (err : value) (status : number) (env : value)
  (w : world) :
  truthy err = true ->
  getErrorMessage err status env w =
    (error_message err status env, happens (error_message_reads err env) w).
Proof.
  intros H.
  unfold getErrorMessage, error_message, error_message_reads, bind.
  destruct (strict_eq_string env "production"); cbn [negb]; cbv beta iota.
  { unfold ret. now rewrite happens_nil. }
  read_step H.
  destruct (truthy (lookup err "stack")) eqn:T; cbn [negb]; cbv beta iota.
  { reflexivity. }
  read_step H.
  destruct (is_function (lookup err "toString")); cbv beta iota.
  - read_step H. rewrite log_happens. cbv beta iota.
    rewrite happens_app. unfold lift.
    destruct (call (lookup err "toString") err);
      reflexivity.
  - unfold ret, js_or. now rewrite T.
Qed.

(** *** The response *)

Lemma setHeaders_loop_run (headers : value) (keys : list string) (w : world) :
  truthy headers = true ->
  setHeaders_loop headers keys w =
    (Normal tt,
     happens (map (fun k => EvSetHeader k (lookup headers k)) keys) w).
Proof.
  intros H. revert w. induction keys as [|k keys IH]; intros w.
  - simpl. now rewrite happens_nil.
  - cbn [setHeaders_loop map]. unfold bind, lift.
    rewrite (get_truthy _ k H). cbv beta iota.
    rewrite log_happens. cbv beta iota.
    rewrite IH, happens_app. reflexivity.
Qed.

Lemma setHeaders_run (headers : value) (w : world) :
  setHeaders headers w = (Normal tt, happens (header_events headers) w).
Proof.
  unfold setHeaders, header_events.
  destruct (truthy headers) eqn:T; cbn [negb].
  - now apply setHeaders_loop_run.
  - unfold ret. now rewrite happens_nil.
Qed.

Lemma write_run (status : number) (headers message : value) (w : world) :
  write
    status headers message w =
    match createHtmlDocument message with
    | Throw e => (Throw e, w)
    | Normal body =>
        (Normal tt,
         mkWorld (w_req w) (with_status status (w_res w)) (w_listeners w)
           (w_trace w ++
            write_events (req_method (w_req w)) status headers body))
    end.
Proof.
  unfold write, bind, lift.
  destruct (createHtmlDocument message) as [body|e]; [|reflexivity].
  destruct w as [req res ls tr].
  unfold get_res, put_res, get_req. cbn [w_req w_res w_listeners w_trace].
  rewrite !log_happens. cbv beta iota.
  unfold happens at 1 2. cbn [w_req w_res w_listeners w_trace].
  rewrite setHeaders_run. rewrite !log_happens. cbv beta iota.
  rewrite !happens_app.
  unfold happens. cbn [w_req w_res w_listeners w_trace].
  unfold with_status, write_events.
  destruct (String.eqb (req_method req) "HEAD");
    rewrite log_happens; unfold happens;
    cbn [w_req w_res w_listeners w_trace];
    repeat rewrite <- app_assoc; reflexivity.
Qed.

Lemma sendResponse_run (status : number) (headers message : value)
  (w : world) :
  sendResponse status headers message w =
    if req_finished (w_req w)
    then write status headers message w
    else
      (Normal tt,
       mkWorld (drained (w_req w)) (w_res w)
         (w_listeners w ++ [WriteListener status headers message])
         (w_trace w ++
          [EvUnpipe; EvOnFinished (WriteListener status headers message);
           EvResume])).
Proof.
  destruct w as [req res ls tr]. unfold sendResponse, bind, get_req.
  cbn [w_req w_res w_listeners w_trace].
  destruct (req_finished req); [reflexivity|].
  unfold unpipe, onFinished, resume, bind, get_req, put_req, add_listener,
    log, drained. cbn. repeat rewrite <- app_assoc. reflexivity.
Qed.

(** *** Status, headers and message of an invocation *)

Lemma derive_run (env err : value) (w : world) :
  derive
    env err w =
    (match derived_message env err w with
     | Normal msg =>
         Normal (derived_status err (w_res w), derived_headers err, msg)
     | Throw e => Throw e
     end,
     happens (derive_reads env err) w).
Proof.
  unfold derive, derived_message, derived_status, derived_headers,
    derive_reads.
  destruct (truthy err) eqn:T.
  - unfold bind. rewrite (getErrorStatusCode_run _ _ T). cbv beta iota.
    destruct (error_status err) as [n|].
    + rewrite (getErrorHeaders_run _ _ T). cbv beta iota.
      rewrite happens_app. unfold ret at 1. cbv beta iota. cbn [fst snd].
      rewrite (getErrorMessage_run _ _ _ _ T), happens_app, <- app_assoc.
      destruct (error_message err n env); reflexivity.
    + unfold get_res. cbv beta iota. unfold ret at 1. cbv beta iota.
      cbn [fst snd].
      rewrite (getErrorMessage_run _ _ _ _ T), happens_app.
      cbn [w_res happens app].
      destruct (error_message err _ env); reflexivity.
  - unfold bind, get_req, ret. now rewrite happens_nil.
Qed.

(** *** Notification and the deferred callback *)

Lemma notify_run (opts : options) (w : world) :
  notify opts w =
    (Normal tt, happens (notify_events opts (w_req w)) w).
Proof.
  unfold notify, notify_events, has_emit, bind, get_req.
  destruct (truthy (opt_app opts)) eqn:T; cbn [andb].
  - unfold lift. rewrite (get_truthy _ _ T). cbv beta iota.
    destruct (is_function (lookup (opt_app opts) "emit")).
    + apply log_happens.
    + unfold ret. now rewrite happens_nil.
  - unfold ret. now rewrite happens_nil.
Qed.

Lemma finish_sent (env : value) (opts : options) (err : value) (w : world) :
  headersSent (w_res w) = true ->
  finish env opts err w =
    (Normal tt,
     happens [EvDebug "cannot %d after headers sent" [VUndefined];
              EvEnd (Some "")] w).
Proof.
  intros H. unfold finish, bind, get_res. rewrite H.
  rewrite !log_happens. now rewrite happens_app.
Qed.

Lemma finish_run (env : value) (opts : options) (err : value) (w : world) :
  headersSent (w_res w) = false ->
  finish env opts err w =
    match derived_message env err w with
    | Throw e => (Throw e, happens (derive_reads env err) w)
    | Normal msg =>
        let status := derived_status err (w_res w) in
        sendResponse status (derived_headers err) msg
          (happens (derive_reads env err ++
                    dispatch_events opts err (w_req w) status) w)
    end.
Proof.
  intros H. unfold finish, bind, get_res. rewrite H.
  rewrite derive_run.
  destruct (derived_message env err w) as [msg|e]; [|reflexivity].
  cbv beta iota zeta. unfold get_req. rewrite !log_happens.
  cbv beta iota. rewrite notify_run. cbv beta iota.
  rewrite !log_happens. cbv beta iota.
  unfold dispatch_events.
  destruct (truthy err && truthy (opt_onerror opts)).
  - rewrite !log_happens. cbv beta iota. rewrite !happens_app.
    cbn [w_req happens]. repeat rewrite <- app_assoc. reflexivity.
  - unfold ret. rewrite !happens_app.
    cbn [w_req happens]. repeat rewrite <- app_assoc. reflexivity.
Qed.

(** *** An invocation followed by the end of the request stream *)

Lemma serve_sent (env : value) (opts : options) (err : value) (w : world) :
  headersSent (w_res w) = true ->
  w_listeners w = [] ->
  fst (serve env opts err w) = Normal tt /\
  w_trace (snd (serve env opts err w)) =
    w_trace w ++ [EvDebug "cannot %d after headers sent" [VUndefined];
                  EvEnd (Some "")] ++
    (if req_finished (w_req w) then [] else [EvRequestFinished]).
Proof.
  intros H L. unfold serve, bind. rewrite (finish_sent _ _ _ _ H).
  destruct w as [req res ls tr]. cbn in L. subst ls.
  unfold get_req, happens. cbn [w_req w_res w_listeners w_trace fst snd].
  destruct (req_finished req).
  - cbn. split; reflexivity.
  - unfold request_finishes. cbn. split; [reflexivity|].
    now rewrite <- app_assoc.
Qed.

Lemma serve_run (env : value) (opts : options) (err : value) (w : world) :
  headersSent (w_res w) = false ->
  w_listeners w = [] ->
  serve env opts err w =
    match derived_message env err w with
    | Throw e => (Throw e, happens (derive_reads env err) w)
    | Normal msg =>
        let status := derived_status err (w_res w) in
        let headers := derived_headers err in
        let before :=
          w_trace w ++ derive_reads env err ++
          dispatch_events opts err (w_req w) status in
        match createHtmlDocument msg with
        | Throw e =>
            (Throw e,
             if req_finished (w_req w)
             then mkWorld (w_req w) (w_res w) [] before
             else mkWorld (finished (drained (w_req w))) (w_res w) []
                    (before ++
                     [EvUnpipe;
                      EvOnFinished (WriteListener status headers msg);
                      EvResume; EvRequestFinished]))
        | Normal body =>
            (Normal tt,
             mkWorld (served_request (w_req w))
               (with_status status (w_res w)) []
               (before ++
                sending_events (w_req w) status headers msg body))
        end
    end.
Proof.
  intros H L. unfold serve, bind. rewrite (finish_run _ _ _ _ H).
  destruct (derived_message env err w) as [msg|e]; [|reflexivity].
  cbv zeta. rewrite sendResponse_run.
  destruct w as [req res ls tr]. cbn in L. subst ls.
  unfold happens, served_request, sending_events.
  cbn [w_req w_res w_listeners w_trace].
  destruct (req_finished req) eqn:F.
  - rewrite write_run. cbn [w_req w_res w_listeners w_trace].
    destruct (createHtmlDocument msg) as [body|e].
    + unfold get_req. cbn [w_req]. rewrite F. unfold ret.
      repeat rewrite <- app_assoc. reflexivity.
    + repeat rewrite <- app_assoc. reflexivity.
  - unfold get_req. cbn [w_req]. unfold drained at 1. cbn [req_finished].
    rewrite F. unfold request_finishes.
    cbn [w_req w_res w_listeners w_trace app run_listeners].
    unfold bind. rewrite write_run.
    cbn [w_req w_res w_listeners w_trace].
    destruct (createHtmlDocument msg) as [body|e].
    + unfold ret. cbn [req_method drained finished].
      repeat rewrite <- app_assoc. reflexivity.
    + cbn [req_method drained finished req_url req_originalUrl
           req_piped req_flowing].
      repeat rewrite <- app_assoc. reflexivity.
Qed.

(** *** The trace of a run, kind by kind *)

Lemma error_message_reads_are_reads (err env : value) :
  Forall is_read (error_message_reads err env).
Proof.
  unfold error_message_reads.
  destruct (strict_eq_string _ _); [constructor|].
  destruct (truthy _); [repeat constructor|].
  destruct (is_function _); repeat constructor.
Qed.

Lemma derive_reads_are_reads (env err : value) :
  Forall is_read (derive_reads env err).
Proof.
  unfold derive_reads. destruct (truthy err); [|constructor].
  apply Forall_app. split; [apply error_status_reads_are_reads|].
  apply Forall_app. split; [|apply error_message_reads_are_reads].
  destruct (error_status err);
    [apply error_headers_reads_are_reads | constructor].
Qed.

Lemma header_events_select {A : Type} (f : event -> option A)
  (headers : value) :
  (forall k v, f (EvSetHeader k v) = None) ->
  select f (header_events headers) = [].
Proof.
  intros Hf. unfold header_events. destruct (truthy headers); [|reflexivity].
  induction (Object_keys headers) as [|k ks IH]; simpl; [reflexivity|].
  now rewrite Hf.
Qed.

Lemma emitted_dispatch (opts : options) (err : value) (req : request)
  (status : number) :
  emitted (dispatch_events opts err req status) =
    if has_emit opts
    then [("errorDispatch", dispatch_payload req)]
    else [].
Proof.
  unfold dispatch_events, notify_events.
  destruct (has_emit opts), (truthy err && truthy (opt_onerror opts));
    reflexivity.
Qed.

Lemma emitted_sending (req : request) (status : number)
  (headers message : value) (body : string) :
  emitted (sending_events req status headers message body) = [].
Proof.
  unfold sending_events, write_events, emitted.
  destruct (req_finished req); rewrite !select_app;
    rewrite header_events_select by reflexivity; reflexivity.
Qed.

Lemma applied_sending (req : request) (status : number)
  (headers message : value) (body : string) :
  applied (sending_events req status headers message body) =
    applied (header_events headers) ++ standard_headers body.
Proof.
  unfold sending_events, write_events, applied.
  destruct (req_finished req); rewrite !select_app; reflexivity.
Qed.

Lemma applied_dispatch (opts : options) (err : value) (req : request)
  (status : number) :
  applied (dispatch_events opts err req status) = [].
Proof.
  unfold dispatch_events, notify_events.
  destruct (has_emit opts), (truthy err && truthy (opt_onerror opts));
    reflexivity.
Qed.

Lemma written_sending (req : request) (status : number)
  (headers message : value) (body : string) :
  written_statuses (sending_events req status headers message body) = [status].
Proof.
  unfold sending_events, write_events, written_statuses.
  destruct (req_finished req); rewrite !select_app;
    rewrite header_events_select by reflexivity; reflexivity.
Qed.

Lemma written_dispatch (opts : options) (err : value) (req : request)
  (status : number) :
  written_statuses (dispatch_events opts err req status) = [].
Proof.
  unfold dispatch_events, notify_events.
  destruct (has_emit opts), (truthy err && truthy (opt_onerror opts));
    reflexivity.
Qed.

Lemma ended_sending (req : request) (status : number)
  (headers message : value) (body : string) :
  ended (sending_events req status headers message body) =
    [if String.eqb (req_method req) "HEAD" then None else Some body].
Proof.
  unfold sending_events, write_events, ended.
  destruct (req_finished req); rewrite !select_app;
    rewrite header_events_select by reflexivity; reflexivity.
Qed.

Lemma ended_dispatch (opts : options) (err : value) (req : request)
  (status : number) :
  ended (dispatch_events opts err req status) = [].
Proof.
  unfold dispatch_events, notify_events.
  destruct (has_emit opts), (truthy err && truthy (opt_onerror opts));
    reflexivity.
Qed.

(** C5: when the headers of the response were already sent, the
    invocation, with or without an error, does nothing but end the
    response with an empty write: no property of the error is read, no
    status or header is set, no listener is registered, the request
    and the response are left as they were, and nothing is thrown. *)
Theorem headers_sent_guard (env : value) (opts : options) (err : value)
  (w : world) :
  headersSent (w_res w) = true ->
  finish env opts err w =
    (Normal tt,
     mkWorld (w_req w) (w_res w) (w_listeners w)
       (w_trace w ++
        [EvDebug "cannot %d after headers sent" [VUndefined];
         EvEnd (Some "")])).
Proof.
  intros H. unfold finish, bind, get_res. rewrite H.
  rewrite !log_happens. unfold happens.
  cbn [w_req w_res w_listeners w_trace]. now rewrite <- app_assoc.
Qed.

Lemma emitted_finish (env : value) (opts : options) (err : value)
  (w : world) (msg : value) :
  headersSent (w_res w) = false ->
  derived_message env err w = Normal msg ->
  emitted (w_trace (snd (finish env opts err w))) =
    emitted (w_trace w) ++
    if has_emit opts
    then [("errorDispatch", dispatch_payload (w_req w))]
    else [].
Proof.
  intros H D.
  rewrite (finish_run _ _ _ _ H), D. cbv zeta.
  rewrite sendResponse_run.
  assert (R : emitted (derive_reads env err) = [])
    by (apply select_reads;
        [intros [] He; try reflexivity; destruct He
        | apply derive_reads_are_reads]).
  destruct (req_finished (w_req (happens _ w))).
  - rewrite write_run.
    destruct (createHtmlDocument msg) as [body|e];
      cbn [snd w_trace happens]; unfold emitted in *;
      rewrite !select_app; fold emitted.
    + unfold write_events. unfold emitted. rewrite !select_app.
      rewrite header_events_select by reflexivity. fold emitted.
      rewrite emitted_dispatch. unfold emitted in *. rewrite R.
      cbn [app select]. now rewrite app_nil_r.
    + rewrite emitted_dispatch. unfold emitted in *. now rewrite R.
  - cbn [snd w_trace happens]. unfold emitted in *.
    rewrite !select_app. fold emitted.
    rewrite emitted_dispatch. unfold emitted in *. rewrite R.
    cbn [app select]. now rewrite app_nil_r.
Qed.

Lemma finish_normal_message (env : value) (opts : options) (err : value)
  (w : world) :
  headersSent (w_res w) = false ->
  truthy err = false \/ fst (finish env opts err w) = Normal tt ->
  exists msg, derived_message env err w = Normal msg.
Proof.
  intros H [T | N].
  - unfold derived_message. rewrite T. eauto.
  - rewrite (finish_run _ _ _ _ H) in N.
    destruct (derived_message env err w) as [msg|e]; [eauto | discriminate].
Qed.

Lemma finish_raises_in_derivation (env : value) (opts : options)
  (err : value) (w : world) (e : value) :
  headersSent (w_res w) = false ->
  derived_message env err w = Throw e ->
  fst (finish env opts err w) = Throw e /\
  emitted (w_trace (snd (finish env opts err w))) = emitted (w_trace w).
Proof.
  intros H D. rewrite (finish_run _ _ _ _ H), D. split; [reflexivity|].
  cbn [snd happens w_trace]. unfold emitted. rewrite select_app.
  rewrite (select_reads _ (derive_reads env err));
    [now rewrite app_nil_r | | apply derive_reads_are_reads].
  intros [] He; try reflexivity; destruct He.
Qed.

(** C10, as amended: when the headers were not sent and the app has an
    [emit] function, an invocation whose derivation of the status and
    the message returns emits "errorDispatch" exactly once, with the
    method of the request and the encoded resource name as [url]; the
    derivation returns in every invocation without an error and in
    every invocation that returns.  When the derivation raises, so does
    the invocation, and nothing is emitted.  The resource name is the
    pathname of the parsed original URL, or "resource" when parsing
    throws or yields nothing to read a pathname from. *)
Theorem error_dispatch_emitted_once (env : value) (opts : options)
  (err : value) (w : world) :
  headersSent (w_res w) = false ->
  has_emit opts = true ->
  ((exists msg, derived_message env err w = Normal msg) ->
   emitted (w_trace (snd (finish env opts err w))) =
     emitted (w_trace w) ++
     [("errorDispatch",
       VObject [("method", VString (req_method (w_req w)));
                ("url", VString (encodeUrl (getResourceName (w_req w))))]
               [Object_prototype])]) /\
  (truthy err = false \/ fst (finish env opts err w) = Normal tt ->
   exists msg, derived_message env err w = Normal msg) /\
  (forall e, derived_message env err w = Throw e ->
             fst (finish env opts err w) = Throw e /\
             emitted (w_trace (snd (finish env opts err w))) =
               emitted (w_trace w)) /\
  getResourceName (w_req w) =
    match parseUrl_original (w_req w) with
    | Normal (VUndefined | VNull) | Throw _ => VString "resource"
    | Normal parsed => lookup parsed "pathname"
    end.
Proof.
  intros H E. split; [|split; [|split]].
  - intros [msg D].
    rewrite (emitted_finish _ _ _ _ _ H D), E. reflexivity.
  - now apply finish_normal_message.
  - intros e D. now apply finish_raises_in_derivation.
  - unfold getResourceName, lookup.
    destruct (parseUrl_original (w_req w)) as [parsed|e]; [|reflexivity].
    destruct parsed; reflexivity.
Qed.

(** *** Headers *)

Lemma applied_own (own : list (string * value)) :
  NoDup (map fst own) ->
  applied (header_events (VObject own [])) = own.
Proof.
  intros Hnd. unfold header_events. cbn [truthy Object_keys].
  enough (G : forall done todo,
             own = done ++ todo ->
             applied (map (fun k => EvSetHeader k (lookup (VObject own []) k))
                        (map fst todo)) = todo)
    by (apply (G [] own); reflexivity).
  intros done todo. revert done.
  induction todo as [|[k v] todo IH]; intros done E; [reflexivity|].
  assert (Hk : ~ In k (map fst done)).
  { rewrite E, map_app in Hnd. cbn [map fst] in Hnd.
    apply NoDup_remove_2 in Hnd. intros Hin. apply Hnd.
    apply in_or_app. now left. }
  assert (L : lookup (VObject own []) k = v).
  { unfold lookup, get. cbn [chain_lookup].
    rewrite E, (assoc_app_notin _ _ _ Hk). simpl.
    now rewrite String.eqb_refl. }
  cbn [map fst applied select]. rewrite L. f_equal.
  apply (IH (done ++ [(k, v)])). rewrite E, <- app_assoc. reflexivity.
Qed.

(** A run that produced a response went through both derivations. *)
Lemma serve_normal (env : value) (opts : options) (err : value)
  (w w' : world) :
  headersSent (w_res w) = false ->
  w_listeners w = [] ->
  serve env opts err w = (Normal tt, w') ->
  exists msg body,
    derived_message env err w = Normal msg /\
    createHtmlDocument msg = Normal body /\
    w' = mkWorld (served_request (w_req w))
           (with_status (derived_status err (w_res w)) (w_res w)) []
           ((w_trace w ++ derive_reads env err ++
             dispatch_events opts err (w_req w)
               (derived_status err (w_res w))) ++
            sending_events (w_req w) (derived_status err (w_res w))
              (derived_headers err) msg body).
Proof.
  intros H L. rewrite (serve_run _ _ _ _ H L).
  destruct (derived_message env err w) as [msg|e]; [|discriminate].
  cbv zeta. destruct (createHtmlDocument msg) as [body|e] eqn:D; [|discriminate].
  intros [= <-]. exists msg, body. repeat split; auto.
Qed.

Lemma run_returned {A : Type} (run : completion A * world) (a : A) :
  fst run = Normal a -> run = (Normal a, snd run).
Proof. destruct run as [c w']. simpl. now intros ->. Qed.

(** A run that raises has written nothing to the response. *)
Lemma serve_raises (env : value) (opts : options) (err : value)
  (w : world) (e : value) :
  headersSent (w_res w) = false ->
  w_listeners w = [] ->
  fst (serve env opts err w) = Throw e ->
  applied (w_trace (snd (serve env opts err w))) = applied (w_trace w) /\
  written_statuses (w_trace (snd (serve env opts err w))) =
    written_statuses (w_trace w) /\
  ended (w_trace (snd (serve env opts err w))) = ended (w_trace w).
Proof.
  intros H L. rewrite (serve_run _ _ _ _ H L).
  assert (R : forall (A : Type) (f : event -> option A),
             (forall x, is_read x -> f x = None) ->
             select f (derive_reads env err) = [])
    by (intros A f Hf; apply select_reads;
        [exact Hf | apply derive_reads_are_reads]).
  assert (Ra : applied (derive_reads env err) = [])
    by (apply R; intros [] He; try reflexivity; destruct He).
  assert (Rw : written_statuses (derive_reads env err) = [])
    by (apply R; intros [] He; try reflexivity; destruct He).
  assert (Re : ended (derive_reads env err) = [])
    by (apply R; intros [] He; try reflexivity; destruct He).
  destruct (derived_message env err w) as [msg|e1].
  - cbv zeta. destruct (createHtmlDocument msg) as [body|e2]; [discriminate|].
    intros _. cbn [snd].
    destruct (req_finished (w_req w)); cbn [w_trace];
      unfold applied, written_statuses, ended in *;
      rewrite !select_app, ?Ra, ?Rw, ?Re;
      fold applied written_statuses ended;
      rewrite applied_dispatch, written_dispatch, ended_dispatch;
      cbn [app select]; rewrite ?app_nil_r; auto.
  - intros _. cbn [snd happens w_trace].
    unfold applied, written_statuses, ended in *.
    rewrite !select_app, Ra, Rw, Re, !app_nil_r. auto.
Qed.


(** *** The status *)

Lemma lt_400_gt_599_range (q : Q) :
  Num.lt (Num.Fin q) (Num.of_Z 400) || Num.gt (Num.Fin q) (Num.of_Z 599) = false <->
  Num.in_range 400 (Num.Fin q) 599 false.
Proof.
  unfold Num.lt, Num.gt. cbn [Num.compare Num.of_Z Num.in_range].
  change (inject_Z 400) with 400%Q. change (inject_Z 599) with 599%Q.
  rewrite orb_false_iff. split.
  - intros [Hlt Hgt]. split.
    + destruct (Qcompare q 400) eqn:E; try discriminate.
      * apply Qeq_alt in E. rewrite E. apply Qle_refl.
      * apply Qgt_alt in E. now apply Qlt_le_weak.
    + destruct (Qcompare q 599) eqn:E; try discriminate.
      * apply Qeq_alt in E. rewrite E. apply Qle_refl.
      * apply Qlt_alt in E. now apply Qlt_le_weak.
  - intros [Hge Hle]. split.
    + destruct (Qcompare q 400) eqn:E; try reflexivity.
      apply Qlt_alt in E. exfalso. exact (Qlt_not_le _ _ E Hge).
    + destruct (Qcompare q 599) eqn:E; try reflexivity.
      apply Qgt_alt in E. exfalso. exact (Qlt_not_le _ _ E Hle).
Qed.

(** The fallback keeps a status code of the response that is a number
    in [400,599] and turns every other value but [NaN] into 500. *)
Lemma getResponseStatusCode_cases (res : response) :
  match res_statusCode res with
  | VNumber Num.NaN => getResponseStatusCode res = Num.NaN
  | VNumber n =>
      (Num.in_range 400 n 599 false -> getResponseStatusCode res = n) /\
      (~ Num.in_range 400 n 599 false ->
       getResponseStatusCode res = Num.of_Z 500)
  | _ => getResponseStatusCode res = Num.of_Z 500
  end.
Proof.
  unfold getResponseStatusCode.
  destruct (res_statusCode res) as [| | |n| | | | | |]; try reflexivity.
  destruct n as [| | |q];
    [reflexivity | split; [intros [] | reflexivity] .. | ].
  pose proof (lt_400_gt_599_range q) as R.
  destruct (Num.lt (Num.Fin q) (Num.of_Z 400) || Num.gt (Num.Fin q) (Num.of_Z 599)).
  - split; [|reflexivity]. intros Hr. apply R in Hr. discriminate.
  - split; [reflexivity|]. intros Hn. exfalso. apply Hn. now apply R.
Qed.

Lemma getResponseStatusCode_range (res : response) :
  res_statusCode res <> VNumber Num.NaN ->
  Num.in_range 400 (getResponseStatusCode res) 599 false.
Proof.
  intros Hnan. pose proof (getResponseStatusCode_cases res) as C.
  assert (F : Num.in_range 400 (Num.of_Z 500) 599 false)
    by (split; discriminate).
  destruct (res_statusCode res) as [| | |n| | | | | |];
    try (rewrite C; exact F).
  destruct n as [| | |q].
  - now elim Hnan.
  - destruct C as [_ C2]. rewrite C2; [exact F | intros []].
  - destruct C as [_ C2]. rewrite C2; [exact F | intros []].
  - destruct C as [C1 C2].
    pose proof (lt_400_gt_599_range q) as R.
    destruct (Num.lt (Num.Fin q) (Num.of_Z 400) || Num.gt (Num.Fin q) (Num.of_Z 599)) eqn:B.
    + rewrite C2; [exact F|]. intros Hr. apply R in Hr. discriminate.
    + assert (Hr : Num.in_range 400 (Num.Fin q) 599 false) by now apply R.
      now rewrite (C1 Hr).
Qed.

Lemma closed_range_half_open (n : number) :
  Num.in_range 400 n 599 false -> Num.in_range 400 n 600 true.
Proof.
  destruct n as [| | |q]; simpl; try tauto.
  intros [H1 H2]. split; [exact H1|].
  apply (Qle_lt_trans _ 599); [exact H2 | reflexivity].
Qed.

Lemma integer_below_600 (n : number) :
  Num.is_integer n ->
  Num.in_range 400 n 600 true -> Num.in_range 400 n 599 false.
Proof.
  intros [z ->]. unfold Num.of_Z, Num.in_range.
  intros [H1 H2]. split; [exact H1|].
  unfold Qlt, Qle in *. simpl in *. lia.
Qed.

Lemma error_status_range (err : value) (n : number) :
  error_status err = Some n -> Num.in_range 400 n 600 true.
Proof.
  unfold error_status.
  destruct (accepted (lookup err "status")) as [m|] eqn:A.
  - intros [= <-]. now apply accepted_in_range in A.
  - intros A'. now apply accepted_in_range in A'.
Qed.

Lemma derived_status_range (err : value) (res : response) :
  (truthy err = true -> error_status err = None ->
   res_statusCode res <> VNumber Num.NaN) ->
  Num.in_range 400 (derived_status err res) 600 true.
Proof.
  intros Hnan. unfold derived_status. destruct (truthy err).
  - destruct (error_status err) as [n|] eqn:E.
    + now apply error_status_range in E.
    + apply closed_range_half_open. apply getResponseStatusCode_range.
      now apply Hnan.
  - split; [discriminate | reflexivity].
Qed.


(** *** The message *)

Lemma reason_phrase_canonical (status : number) :
  reason_phrase status = canonical_message status.
Proof.
  unfold reason_phrase, canonical_message, js_or, option_value.
  destruct (statuses_message status) as [p|]; [|reflexivity].
  cbn [truthy]. now destruct (String.eqb p "").
Qed.

Lemma canonical_message_string (status : number) :
  exists s, canonical_message status = VString s.
Proof.
  unfold canonical_message.
  destruct (statuses_message status) as [p|]; [|eauto].
  destruct (String.eqb p ""); eauto.
Qed.

Lemma createHtmlDocument_string (s : string) :
  createHtmlDocument (VString s) = Normal (html_document s).
Proof. reflexivity. Qed.

Lemma error_message_fallback (err : value) (status : number) (env : value) :
  strict_eq_string env "production" = true \/ no_detail err ->
  error_message err status env = Normal (canonical_message status).
Proof.
  unfold error_message. rewrite reason_phrase_canonical.
  intros [P | [S [F | (m & C & T)]]].
  - now rewrite P.
  - destruct (strict_eq_string env "production"); [reflexivity|].
    now rewrite S, F.
  - destruct (strict_eq_string env "production"); [reflexivity|].
    rewrite S. destruct (is_function (lookup err "toString")); [|reflexivity].
    rewrite C. unfold js_or. now rewrite T.
Qed.


(** *** The request stream and the response *)

Lemma write_events_are_writes (method : string) (status : number)
  (headers : value) (body : string) :
  Forall is_response_write (write_events method status headers body).
Proof.
  unfold write_events. repeat (apply Forall_cons; [exact I|]).
  apply Forall_app. split; [|repeat constructor].
  unfold header_events. destruct (truthy headers); [|constructor].
  induction (Object_keys headers); simpl; constructor; [exact I | assumption].
Qed.

Lemma request_finishes_run (l : listener) (w : world) :
  w_listeners w = [l] ->
  request_finishes w =
    match l with
    | WriteListener status headers message =>
        match createHtmlDocument message with
        | Throw e =>
            (Throw e,
             mkWorld (finished (w_req w)) (w_res w) []
               (w_trace w ++ [EvRequestFinished]))
        | Normal body =>
            (Normal tt,
             mkWorld (finished (w_req w)) (with_status status (w_res w)) []
               (w_trace w ++ EvRequestFinished ::
                write_events (req_method (w_req w)) status headers body))
        end
    end.
Proof.
  intros L. destruct w as [req res ls tr]. cbn in L. subst ls.
  destruct l as [status headers message].
  unfold request_finishes. cbn [w_req w_res w_listeners w_trace run_listeners].
  unfold bind. rewrite write_run. cbn [w_req w_res w_listeners w_trace].
  fold (finished req).
  destruct (createHtmlDocument message) as [body|e]; [|reflexivity].
  unfold ret. cbn [req_method finished]. now rewrite <- app_assoc.
Qed.

(** C8: [sendResponse] writes at once when the request is finished.
    Otherwise it writes nothing: it unpipes the request, registers the
    listener and resumes the stream, in this order; when the stream
    then finishes the listener runs, the response is written, and the
    listener is gone, so a later end of the stream writes nothing more.
    In the trace of such a run every write on the response comes after
    the end of the request stream. *)
Theorem body_written_after_request_finished (status : number)
  (headers message : value) (body : string) (w : world) :
  createHtmlDocument message = Normal body ->
  w_listeners w = [] ->
  let l := WriteListener status headers message in
  let writes := write_events (req_method (w_req w)) status headers body in
  (req_finished (w_req w) = true ->
   sendResponse status headers message w =
     (Normal tt,
      mkWorld (w_req w) (with_status status (w_res w)) []
        (w_trace w ++ writes))) /\
  (req_finished (w_req w) = false ->
   exists w1 w2 : world,
     sendResponse status headers message w = (Normal tt, w1) /\
     w_trace w1 = w_trace w ++ [EvUnpipe; EvOnFinished l; EvResume] /\
     w_listeners w1 = [l] /\
     w_res w1 = w_res w /\
     req_piped (w_req w1) = false /\
     req_flowing (w_req w1) = true /\
     request_finishes w1 = (Normal tt, w2) /\
     w_trace w2 = w_trace w1 ++ EvRequestFinished :: writes /\
     w_listeners w2 = [] /\
     w_trace (snd (request_finishes w2)) = w_trace w2 ++ [EvRequestFinished] /\
     forall (pre post : list event) (e : event),
       w_trace w2 = w_trace w ++ pre ++ e :: post ->
       is_response_write e ->
       In EvRequestFinished pre).
Proof.
  intros D L l writes.
  rewrite sendResponse_run. split; intros F; rewrite F.
  - rewrite write_run, D. now rewrite L.
  - set (w1 := mkWorld (drained (w_req w)) (w_res w)
                 (w_listeners w ++ [l])
                 (w_trace w ++ [EvUnpipe; EvOnFinished l; EvResume])).
    assert (L1 : w_listeners w1 = [l]) by (unfold w1; cbn; now rewrite L).
    pose proof (request_finishes_run l w1 L1) as R.
    unfold l in R. cbv beta iota in R. rewrite D in R. fold l in R.
    eexists w1, _. split; [reflexivity|]. split; [reflexivity|].
    split; [exact L1|]. split; [reflexivity|]. split; [reflexivity|].
    split; [reflexivity|]. split; [exact R|].
    split; [reflexivity|]. split; [reflexivity|]. split; [reflexivity|].
    intros pre post e E W. cbn [w_trace w1 req_method drained] in E.
    rewrite <- app_assoc in E. apply app_inv_head in E.
    cbn [app] in E. fold writes in E.
    destruct pre as [|a pre]; [injection E as <- _; destruct W|].
    destruct pre as [|b pre]; [injection E as _ <- _; destruct W|].
    destruct pre as [|c pre]; [injection E as _ _ <- _; destruct W|].
    destruct pre as [|d pre]; [injection E as _ _ _ <- _; destruct W|].
    injection E as _ _ _ <- _. right. right. right. now left.
Qed.

(** *** Runs in which nothing fails *)

Lemma added_app (w w' : world) (evs : list event) :
  w_trace w' = w_trace w ++ evs -> added w w' = evs.
Proof.
  unfold added. intros ->.
  rewrite skipn_app, skipn_all, Nat.sub_diag. reflexivity.
Qed.

Lemma accepts_app (f : faults) (a b : list event) :
  accepts f (a ++ b) <-> accepts f a /\ accepts f b.
Proof.
  unfold accepts. split.
  - intros H. split; intros e I; apply H, in_or_app; auto.
  - intros [Ha Hb] e I. apply in_app_or in I. destruct I; auto.
Qed.

Lemma read_plain (f : faults) (v : value) (k : string) :
  plain f v -> read f v k = get v k.
Proof. intros P. unfold read. rewrite (P k). now destruct (get v k). Qed.

Lemma err_get_value (err : value) (k : string) (w w1 : world) (a : value) :
  err_get err k w = (Normal a, w1) -> a = lookup err k.
Proof.
  unfold err_get, bind, lift, lookup. rewrite log_happens.
  destruct (get err k); intros E; now inversion E.
Qed.

Lemma follows_same {A : Type} (f : faults) (m : M A) (w : world) :
  (exists evs : list event, w_trace (snd (m w)) = w_trace w ++ evs) ->
  follows f m m w.
Proof. intros G. split; [exact G | reflexivity]. Qed.

Lemma follows_ret {A : Type} (f : faults) (a : A) (w : world) :
  follows f (ret a) (ret a) w.
Proof. apply follows_same. exists []. cbn. now rewrite app_nil_r. Qed.

Lemma follows_lift {A : Type} (f : faults) (c : completion A) (w : world) :
  follows f (lift c) (lift c) w.
Proof. apply follows_same. exists []. cbn. now rewrite app_nil_r. Qed.

Lemma follows_log (f : faults) (e : event) (w : world) :
  follows f (log e) (log e) w.
Proof. apply follows_same. exists [e]. reflexivity. Qed.

Lemma follows_get_req (f : faults) (w : world) :
  follows f get_req get_req w.
Proof. apply follows_same. exists []. cbn. now rewrite app_nil_r. Qed.

Lemma follows_get_res (f : faults) (w : world) :
  follows f get_res get_res w.
Proof. apply follows_same. exists []. cbn. now rewrite app_nil_r. Qed.

Lemma follows_put_res (f : faults) (r : response) (w : world) :
  follows f (put_res r) (put_res r) w.
Proof. apply follows_same. exists []. cbn. now rewrite app_nil_r. Qed.

Lemma follows_bind {A B : Type} (f : faults) (m' m : M A)
  (k' k : A -> M B) (w : world) :
  follows f m' m w ->
  (forall (a : A) (w1 : world),
      m w = (Normal a, w1) -> follows f (k' a) (k a) w1) ->
  follows f (bind m' k') (bind m k) w.
Proof.
  intros [[e1 G1] S1] K. unfold follows, bind.
  rewrite (added_app _ _ _ G1) in S1.
  destruct (m w) as [[a|x] w1] eqn:E; cbn [snd] in G1.
  - destruct (K a w1 eq_refl) as [[e2 G2] S2].
    rewrite (added_app _ _ _ G2) in S2.
    assert (G : w_trace (snd (k a w1)) = w_trace w ++ e1 ++ e2)
      by (rewrite G2, G1; now rewrite app_assoc).
    split; [now exists (e1 ++ e2)|]. intros Acc.
    rewrite (added_app _ _ _ G) in Acc. apply accepts_app in Acc.
    rewrite (S1 (proj1 Acc)). exact (S2 (proj2 Acc)).
  - split; [now exists e1|]. cbn [snd]. intros Acc.
    rewrite (added_app _ _ _ G1) in Acc. now rewrite (S1 Acc).
Qed.

Lemma follows_read (f : faults) (v : value) (k : string) (w : world) :
  plain f v -> follows f (lift (read f v k)) (lift (get v k)) w.
Proof.
  intros P. rewrite (read_plain _ _ _ P). apply follows_lift.
Qed.

Lemma follows_attempt {A : Type} (f : faults) (e : event) (m' m : M A)
  (w : world) :
  follows f m' m w ->
  In e (added w (snd (m w))) ->
  follows f (attempt f e m') m w.
Proof.
  intros [G S] I. split; [exact G|]. intros Acc.
  unfold attempt. rewrite (Acc e I). exact (S Acc).
Qed.

Lemma follows_perform (f : faults) (e : event) (w : world) :
  follows f (perform f e) (log e) w.
Proof.
  apply follows_attempt; [apply follows_log|].
  rewrite (added_app w (snd (log e w)) [e]) by reflexivity. now left.
Qed.

Lemma err_get_follows (f : faults) (err : value) (k : string) (w : world) :
  plain f err -> follows f (err_get_with f err k) (err_get err k) w.
Proof.
  intros P. unfold err_get_with, err_get.
  apply follows_bind; [apply follows_log|]. intros _ w1 _.
  now apply follows_read.
Qed.

Ltac follow :=
  repeat first
    [ apply follows_ret | apply follows_log | apply follows_lift
    | apply follows_get_req | apply follows_get_res | apply follows_put_res
    | apply follows_perform
    | apply err_get_follows; assumption
    | apply follows_read; assumption
    | apply follows_bind; [|intros ? ? ?]
    | match goal with
      | |- follows _ (if ?c then _ else _) (if ?c then _ else _) _ =>
          destruct c
      | |- follows _ (match ?v with _ => _ end) (match ?v with _ => _ end) _ =>
          destruct v
      end ].

Lemma valid_status_follows (f : faults) (err : value) (k : string)
  (w : world) :
  plain f err -> follows f (valid_status_with f err k) (valid_status err k) w.
Proof. intros P. unfold valid_status_with, valid_status. follow. Qed.

Lemma getErrorStatusCode_follows (f : faults) (err : value) (w : world) :
  plain f err ->
  follows f (getErrorStatusCode_with f err) (getErrorStatusCode err) w.
Proof.
  intros P. unfold getErrorStatusCode_with, getErrorStatusCode.
  apply follows_bind; [now apply valid_status_follows|]. intros s w1 _.
  destruct s; [apply follows_ret | now apply valid_status_follows].
Qed.

Lemma copy_headers_follows (f : faults) (err : value) (keys : list string) :
  plain f err -> plain f (lookup err "headers") ->
  forall (acc : list (string * value)) (w : world),
    follows f (copy_headers_with f err keys acc) (copy_headers err keys acc) w.
Proof.
  intros P Ph. induction keys as [|key rest IH]; intros acc w;
    cbn [copy_headers_with copy_headers]; [apply follows_ret|].
  apply follows_bind; [now apply err_get_follows|]. intros h w1 E.
  apply err_get_value in E. subst h.
  apply follows_bind; [now apply follows_read|]. intros v w2 _. apply IH.
Qed.

Lemma getErrorHeaders_follows (f : faults) (err : value) (w : world) :
  plain f err -> plain f (lookup err "headers") ->
  follows f (getErrorHeaders_with f err) (getErrorHeaders err) w.
Proof.
  intros P Ph. unfold getErrorHeaders_with, getErrorHeaders.
  apply follows_bind; [now apply err_get_follows|]. intros h w1 _.
  destruct (negb (truthy h)); [apply follows_ret|].
  apply follows_bind; [now apply err_get_follows|]. intros h' w2 _.
  destruct (negb (String.eqb (typeof h') "object")); [apply follows_ret|].
  apply follows_bind; [now apply err_get_follows|]. intros h'' w3 _.
  cbv zeta.
  apply follows_bind; [now apply copy_headers_follows|]. intros hs w4 _.
  apply follows_ret.
Qed.

Lemma getErrorMessage_follows (f : faults) (err : value) (status : number)
  (env : value) (w : world) :
  plain f err ->
  follows f (getErrorMessage_with f err status env)
    (getErrorMessage err status env) w.
Proof. intros P. unfold getErrorMessage_with, getErrorMessage. follow. Qed.

Lemma derive_follows (f : faults) (env err : value) (w : world) :
  plain f err -> plain f (lookup err "headers") ->
  follows f (derive_with f env err) (derive env err) w.
Proof.
  intros P Ph. unfold derive_with, derive.
  destruct (truthy err); [|follow].
  apply follows_bind; [now apply getErrorStatusCode_follows|]. intros s w1 _.
  apply follows_bind.
  - destruct s; [|follow].
    apply follows_bind; [now apply getErrorHeaders_follows|]. intros h w2 _.
    apply follows_ret.
  - intros sh w2 _.
    apply follows_bind; [now apply getErrorMessage_follows|]. intros m w3 _.
    apply follows_ret.
Qed.

Lemma setHeaders_loop_follows (f : faults) (headers : value)
  (keys : list string) (w : world) :
  follows f (setHeaders_loop_with f headers keys)
    (setHeaders_loop headers keys) w.
Proof.
  revert w. induction keys as [|key rest IH]; intros w;
    cbn [setHeaders_loop_with setHeaders_loop]; [apply follows_ret|].
  follow. apply IH.
Qed.

Lemma setHeaders_follows (f : faults) (headers : value) (w : world) :
  follows f (setHeaders_with f headers) (setHeaders headers) w.
Proof.
  unfold setHeaders_with, setHeaders.
  destruct (negb (truthy headers));
    [apply follows_ret | apply setHeaders_loop_follows].
Qed.

Lemma write_follows (f : faults) (status : number) (headers message : value)
  (w : world) :
  follows f (write_with f status headers message)
    (write status headers message) w.
Proof.
  unfold write_with, write.
  repeat (apply follows_bind;
          [first [apply setHeaders_follows | follow; fail]|intros ? ? _]).
  follow.
Qed.

Lemma unpipe_follows (f : faults) (w : world) :
  follows f (attempt f EvUnpipe unpipe) unpipe w.
Proof.
  apply follows_attempt.
  - apply follows_same. exists [EvUnpipe]. reflexivity.
  - rewrite (added_app w (snd (unpipe w)) [EvUnpipe]) by reflexivity.
    now left.
Qed.

Lemma resume_follows (f : faults) (w : world) :
  follows f (attempt f EvResume resume) resume w.
Proof.
  apply follows_attempt.
  - apply follows_same. exists [EvResume]. reflexivity.
  - rewrite (added_app w (snd (resume w)) [EvResume]) by reflexivity.
    now left.
Qed.

Lemma onFinished_follows (f : faults) (l : listener) (w : world) :
  follows f (attempt f (EvOnFinished l) (onFinished l)) (onFinished l) w.
Proof.
  apply follows_attempt.
  - apply follows_same. exists [EvOnFinished l]. reflexivity.
  - rewrite (added_app w (snd (onFinished l w)) [EvOnFinished l])
      by reflexivity.
    now left.
Qed.

Lemma sendResponse_follows (f : faults) (status : number)
  (headers message : value) (w : world) :
  follows f (sendResponse_with f status headers message)
    (sendResponse status headers message) w.
Proof.
  unfold sendResponse_with, sendResponse.
  apply follows_bind; [apply follows_get_req|]. intros req w1 _.
  destruct (req_finished req); [apply write_follows|].
  apply follows_bind; [apply unpipe_follows|]. intros _ w2 _.
  apply follows_bind; [apply onFinished_follows|]. intros _ w3 _.
  apply resume_follows.
Qed.

Lemma notify_follows (f : faults) (opts : options) (w : world) :
  plain f (opt_app opts) ->
  follows f (notify_with f opts) (notify opts) w.
Proof. intros P. unfold notify_with, notify. follow. Qed.

Lemma finish_follows (f : faults) (env : value) (opts : options)
  (err : value) (w : world) :
  plain f err -> plain f (lookup err "headers") -> plain f (opt_app opts) ->
  follows f (finish_with f env opts err) (finish env opts err) w.
Proof.
  intros P Ph Pa. unfold finish_with, finish.
  apply follows_bind; [apply follows_get_res|]. intros res w1 _.
  destruct (headersSent res); [follow|].
  apply follows_bind; [now apply derive_follows|].
  intros [[status headers] msg] w2 _.
  apply follows_bind; [apply follows_get_req|]. intros req w3 _.
  apply follows_bind; [apply follows_perform|]. intros _ w4 _.
  apply follows_bind; [now apply notify_follows|]. intros _ w5 _.
  apply follows_bind; [apply follows_perform|]. intros _ w6 _.
  apply follows_bind; [follow|]. intros _ w7 _.
  apply sendResponse_follows.
Qed.

Lemma run_listeners_follows (f : faults) (ls : list listener) (w : world) :
  follows f (run_listeners_with f ls) (run_listeners ls) w.
Proof.
  revert w. induction ls as [|[status headers message] rest IH]; intros w;
    cbn [run_listeners_with run_listeners]; [apply follows_ret|].
  apply follows_bind; [apply write_follows|]. intros _ w1 _. apply IH.
Qed.

Lemma request_finishes_follows (f : faults) (w : world) :
  follows f (request_finishes_with f) request_finishes w.
Proof.
  pose (w0 := mkWorld
                (mkRequest (req_method (w_req w)) (req_url (w_req w))
                   (req_originalUrl (w_req w)) true (req_piped (w_req w))
                   (req_flowing (w_req w)))
                (w_res w) [] (w_trace w ++ [EvRequestFinished])).
  unfold follows.
  change (request_finishes_with f w)
    with (run_listeners_with f (w_listeners w) w0).
  change (request_finishes w) with (run_listeners (w_listeners w) w0).
  destruct (run_listeners_follows f (w_listeners w) w0) as [[evs G] S].
  assert (G' : w_trace (snd (run_listeners (w_listeners w) w0)) =
               w_trace w ++ EvRequestFinished :: evs)
    by (rewrite G; unfold w0; cbn [w_trace]; now rewrite <- app_assoc).
  split; [now exists (EvRequestFinished :: evs)|]. intros Acc.
  rewrite (added_app _ _ _ G') in Acc. apply S.
  rewrite (added_app _ _ _ G). intros e I. apply Acc. now right.
Qed.

Lemma after_finish_follows (f : faults) (w : world) :
  follows f
    (req <- get_req;;
     if req_finished req then ret tt else request_finishes_with f)
    (req <- get_req;;
     if req_finished req then ret tt else request_finishes) w.
Proof.
  apply follows_bind; [apply follows_get_req|]. intros req w1 _.
  destruct (req_finished req);
    [apply follows_ret | apply request_finishes_follows].
Qed.

Lemma serve_follows (f : faults) (env : value) (opts : options)
  (err : value) (w : world) :
  plain f err -> plain f (lookup err "headers") -> plain f (opt_app opts) ->
  follows f (serve_with f env opts err) (serve env opts err) w.
Proof.
  intros P Ph Pa. unfold serve_with, serve.
  apply follows_bind; [now apply finish_follows|]. intros _ w1 _.
  apply after_finish_follows.
Qed.

(** The calls of the invocation are among those of the invocation and
    the end of the request stream. *)
Lemma serve_extends_finish (env : value) (opts : options) (err : value)
  (w : world) :
  exists evs : list event,
    added w (snd (serve env opts err w)) =
      added w (snd (finish env opts err w)) ++ evs.
Proof.
  assert (N : plain no_faults err /\ plain no_faults (lookup err "headers") /\
              plain no_faults (opt_app opts))
    by (repeat split; intros k; reflexivity).
  destruct N as (P & Ph & Pa).
  destruct (finish_follows no_faults env opts err w P Ph Pa) as [[e1 G1] _].
  rewrite (added_app _ _ _ G1).
  unfold serve. unfold bind at 1.
  destruct (finish env opts err w) as [[[]|x] w1]; cbn [snd] in G1 |- *.
  - destruct (after_finish_follows no_faults w1) as [[e2 G2] _].
    exists e2. apply added_app. rewrite G2, G1. now rewrite app_assoc.
  - exists []. apply added_app. now rewrite app_nil_r.
Qed.

(** When nothing fails the handler does what the functions of the
    first part say. *)
Lemma undisturbed_run (f : faults) (env : value) (opts : options)
  (err : value) (w : world) :
  undisturbed f env opts err w ->
  finish_with f env opts err w = finish env opts err w /\
  serve_with f env opts err w = serve env opts err w.
Proof.
  intros (P & Ph & Pa & Acc). split.
  - apply (finish_follows f env opts err w P Ph Pa).
    destruct (serve_extends_finish env opts err w) as [evs E].
    rewrite E in Acc. now apply accepts_app in Acc.
  - now apply (serve_follows f env opts err w P Ph Pa).
Qed.

Lemma no_faults_undisturbed (env : value) (opts : options) (err : value)
  (w : world) :
  undisturbed no_faults env opts err w.
Proof. repeat split; intros k; reflexivity. Qed.

(** Without faults these are the functions of the first part. *)
Lemma no_faults_run (env : value) (opts : options) (err : value)
  (w : world) :
  finish_with no_faults env opts err w = finish env opts err w /\
  serve_with no_faults env opts err w = serve env opts err w.
Proof. apply undisturbed_run, no_faults_undisturbed. Qed.

Lemma accepts_check (f : faults) (evs : list event) :
  forallb (fun e => match call_throws f e with
                    | None => true
                    | Some _ => false
                    end) evs = true ->
  accepts f evs.
Proof.
  intros H e I. rewrite forallb_forall in H. specialize (H e I).
  now destruct (call_throws f e).
Qed.

(** *** Completion *)

Lemma stringifiable_string (s : string) : stringifiable (VString s).
Proof. exists s. reflexivity. Qed.

Lemma stringifiable_canonical (status : number) :
  stringifiable (canonical_message status).
Proof.
  destruct (canonical_message_string status) as [s ->].
  apply stringifiable_string.
Qed.

Lemma well_behaved_message (env err : value) (status : number) :
  well_behaved env err ->
  exists msg, error_message err status env = Normal msg /\ stringifiable msg.
Proof.
  unfold error_message. rewrite reason_phrase_canonical.
  pose proof (stringifiable_canonical status) as SC.
  intros [P | [[S Hs] | [S [F | (m & C & Hm)]]]].
  - rewrite P. eauto.
  - destruct (strict_eq_string env "production"); [eauto|].
    rewrite S. unfold js_or. rewrite S. eauto.
  - destruct (strict_eq_string env "production"); [eauto|].
    rewrite S, F. eauto.
  - destruct (strict_eq_string env "production"); [eauto|].
    rewrite S. destruct (is_function (lookup err "toString")); [|eauto].
    rewrite C. unfold js_or. destruct (truthy m); eauto.
Qed.

Lemma primitive_well_behaved (env err : value) :
  is_primitive err = true -> truthy err = true -> well_behaved env err.
Proof.
  intros P T. right. right.
  destruct err; try discriminate; (split; [reflexivity|]); right;
    cbn [lookup get chain_lookup assoc Primitive_prototype String.eqb
         Ascii.eqb Bool.eqb call call_builtin];
    eexists; (split; [reflexivity|]); intros _; apply stringifiable_string.
Qed.

Lemma bare_object_well_behaved (env err : value) :
  bare_object err -> well_behaved env err.
Proof.
  intros (own & -> & S & F). right. right.
  unfold lookup, get. cbn [chain_lookup]. rewrite S, F.
  split; [reflexivity|]. left. reflexivity.
Qed.

Lemma serve_completes (env : value) (opts : options) (err : value)
  (w : world) :
  w_listeners w = [] ->
  (truthy err = true -> well_behaved env err) ->
  exists w1 w' : world,
    finish env opts err w = (Normal tt, w1) /\
    serve env opts err w = (Normal tt, w').
Proof.
  intros L WB. destruct (headersSent (w_res w)) eqn:H.
  - rewrite (finish_sent _ _ _ _ H).
    pose proof (serve_sent env opts err w H L) as [S _].
    destruct (serve env opts err w) as [c w']. cbn in S. subst c. eauto.
  - rewrite (finish_run _ _ _ _ H), (serve_run _ _ _ _ H L).
    assert (M : exists msg, derived_message env err w = Normal msg /\
                            stringifiable msg).
    { unfold derived_message. destruct (truthy err).
      - now apply well_behaved_message, WB.
      - eexists. split; [reflexivity | apply stringifiable_string]. }
    destruct M as (msg & -> & s & Hs). cbv zeta.
    assert (D : createHtmlDocument msg = Normal (html_document s))
      by (unfold createHtmlDocument; now rewrite Hs).
    rewrite D, sendResponse_run.
    destruct (req_finished (w_req (happens _ w))); [|eauto].
    rewrite write_run, D. eauto.
Qed.


(** *** The document *)

Lemma replace_newlines (s : string) :
  replace_all NEWLINE_REGEXP "<br>" s = newlines_to_br s.
Proof.
  unfold replace_all, NEWLINE_REGEXP.
  induction s as [|c rest IH]; [reflexivity|].
  cbn [replace_from newlines_to_br String.prefix String.length Nat.sub].
  destruct (ascii_dec newline c) as [<-|Hne].
  - rewrite Ascii.eqb_refl.
    replace (String.prefix "" rest) with true by now destruct rest.
    now rewrite IH.
  - destruct (Ascii.eqb_spec c newline) as [->|_]; [now elim Hne|].
    now rewrite IH.
Qed.

Lemma replace_from_match (pat rep : string) (c : ascii) (rest : string) :
  replace_from pat rep 0 (String c rest) =
    if String.prefix pat (String c rest)
    then (rep ++ replace_from pat rep (String.length pat - 1) rest)%string
    else String c (replace_from pat rep 0 rest).
Proof. reflexivity. Qed.

Lemma replace_from_skip (pat rep : string) (n : nat) (c : ascii)
  (rest : string) :
  replace_from pat rep (S n) (String c rest) = replace_from pat rep n rest.
Proof. reflexivity. Qed.

Lemma double_spaces_to_nbsp_two (a b : ascii) (rest : string) :
  double_spaces_to_nbsp (String a (String b rest)) =
    if Ascii.eqb a space && Ascii.eqb b space
    then (" &nbsp;" ++ double_spaces_to_nbsp rest)%string
    else String a (double_spaces_to_nbsp (String b rest)).
Proof. reflexivity. Qed.

Lemma replace_double_spaces (s : string) :
  replace_all DOUBLE_SPACE_REGEXP " &nbsp;" s = double_spaces_to_nbsp s.
Proof.
  unfold replace_all, DOUBLE_SPACE_REGEXP.
  enough (G : replace_from (String space (String space "")) " &nbsp;" 0 s =
              double_spaces_to_nbsp s /\
              forall a,
                replace_from (String space (String space "")) " &nbsp;" 0
                  (String a s) = double_spaces_to_nbsp (String a s))
    by exact (proj1 G).
  induction s as [|b rest [IH1 IH2]].
  - split; [reflexivity|]. intros a.
    cbn [replace_from double_spaces_to_nbsp String.prefix].
    now destruct (ascii_dec space a).
  - split; [apply IH2|]. intros a.
    rewrite replace_from_match, double_spaces_to_nbsp_two.
    cbn [String.prefix String.length Nat.sub].
    destruct (ascii_dec space a) as [<-|Ha].
    + rewrite Ascii.eqb_refl. cbn [andb].
      destruct (ascii_dec space b) as [<-|Hb].
      * rewrite Ascii.eqb_refl.
        replace (String.prefix "" rest) with true by now destruct rest.
        now rewrite replace_from_skip, IH1.
      * destruct (Ascii.eqb_spec b space) as [->|_]; [now elim Hb|].
        now rewrite IH2.
    + destruct (Ascii.eqb_spec a space) as [->|_]; [now elim Ha|].
      cbn [andb]. now rewrite IH2.
Qed.

Lemma nbsp_pairs (k : nat) (s : string) :
  double_spaces_to_nbsp (copies (2 * k) " " ++ s) =
    (copies k " &nbsp;" ++ double_spaces_to_nbsp s)%string.
Proof.
  induction k as [|k IH]; [reflexivity|].
  replace (2 * S k)%nat with (S (S (2 * k))) by lia.
  cbn [copies]. cbn [String.append double_spaces_to_nbsp].
  change (Ascii.eqb " " space) with true. cbn [andb].
  now rewrite IH.
Qed.

Lemma single_space_kept (s : string) :
  starts_with_space s = false ->
  double_spaces_to_nbsp (String space s) =
    String space (double_spaces_to_nbsp s).
Proof.
  destruct s as [|c rest]; [reflexivity|]. cbn [starts_with_space].
  intros E. cbn [double_spaces_to_nbsp]. now rewrite E, andb_false_r.
Qed.

(** C6: the document of a message string is the fixed template, spelled
    out below line by line, with the title "Error", around the body in
    [<pre>]; the body is the escaped message in which then every
    newline character became [<br>] and then, from the left, every two
    consecutive spaces became a space and [&nbsp;]: a run of [2k]
    spaces becomes [k] times " &nbsp;", and a single space before
    another character stays. *)
Theorem html_document_of_message (message : string) :
  let nl := String "010" "" in
  let quote := String "034" "" in
  createHtmlDocument (VString message) =
    Normal ("<!DOCTYPE html>" ++ nl ++
            "<html lang=" ++ quote ++ "en" ++ quote ++ ">" ++ nl ++
            "<head>" ++ nl ++
            "<meta charset=" ++ quote ++ "utf-8" ++ quote ++ ">" ++ nl ++
            "<title>Error</title>" ++ nl ++
            "</head>" ++ nl ++
            "<body>" ++ nl ++
            "<pre>" ++
            double_spaces_to_nbsp (newlines_to_br (escapeHtml message)) ++
            "</pre>" ++ nl ++
            "</body>" ++ nl ++
            "</html>" ++ nl)%string /\
  (forall (k : nat) (s : string),
      double_spaces_to_nbsp (copies (2 * k) " " ++ s) =
        (copies k " &nbsp;" ++ double_spaces_to_nbsp s)%string) /\
  (forall s : string,
      starts_with_space s = false ->
      double_spaces_to_nbsp (String space s) =
        String space (double_spaces_to_nbsp s)).
Proof.
  cbv zeta. split; [|split].
  - rewrite createHtmlDocument_string. unfold html_document, html_body.
    rewrite replace_newlines, replace_double_spaces. reflexivity.
  - apply nbsp_pairs.
  - apply single_space_kept.
Qed.

(** ** Further properties of the code *)

(** *** The body of the document *)

Lemma newlines_to_br_clean (s : string) :
  has_newline (newlines_to_br s) = false.
Proof.
  induction s as [|c rest IH]; [reflexivity|].
  cbn [newlines_to_br].
  destruct (Ascii.eqb c newline) eqn:E.
  - exact IH.
  - cbn [has_newline]. now rewrite E.
Qed.

Lemma newlines_to_br_id (s : string) :
  has_newline s = false -> newlines_to_br s = s.
Proof.
  induction s as [|c rest IH]; [reflexivity|].
  cbn [has_newline newlines_to_br]. intros H.
  apply orb_false_iff in H. destruct H as [E H].
  rewrite E. now rewrite (IH H).
Qed.

Lemma double_spaces_to_nbsp_one (a : ascii) :
  double_spaces_to_nbsp (String a EmptyString) = String a EmptyString.
Proof. reflexivity. Qed.

(** The conversion of the spaces neither adds nor removes a newline. *)
Lemma double_spaces_keep_newlines (s : string) :
  has_newline (double_spaces_to_nbsp s) = has_newline s.
Proof.
  enough (G : has_newline (double_spaces_to_nbsp s) = has_newline s /\
              forall a, has_newline (double_spaces_to_nbsp (String a s)) =
                        has_newline (String a s))
    by exact (proj1 G).
  induction s as [|b rest [IH1 IH2]].
  - split; [reflexivity|]. intros a. reflexivity.
  - split; [apply IH2|]. intros a.
    rewrite double_spaces_to_nbsp_two.
    destruct (Ascii.eqb a space && Ascii.eqb b space) eqn:E.
    + apply andb_true_iff in E. destruct E as [Ea Eb].
      apply Ascii.eqb_eq in Ea, Eb. subst a b.
      cbn [String.append has_newline]. rewrite IH1. reflexivity.
    + cbn [has_newline]. rewrite IH2. reflexivity.
Qed.

Lemma starts_with_space_converted (b : ascii) (rest : string) :
  Ascii.eqb b space = false ->
  starts_with_space (double_spaces_to_nbsp (String b rest)) = false.
Proof.
  intros E. destruct rest as [|c rest].
  - cbn. exact E.
  - rewrite double_spaces_to_nbsp_two, E. cbn [andb starts_with_space].
    exact E.
Qed.

Lemma double_spaces_to_nbsp_clean (s : string) :
  has_double_space (double_spaces_to_nbsp s) = false.
Proof.
  enough (G : has_double_space (double_spaces_to_nbsp s) = false /\
              forall a, has_double_space (double_spaces_to_nbsp (String a s)) =
                        false)
    by exact (proj1 G).
  induction s as [|b rest [IH1 IH2]].
  - split; [reflexivity|]. intros a. cbn. now rewrite andb_false_r.
  - split; [apply IH2|]. intros a.
    rewrite double_spaces_to_nbsp_two.
    destruct (Ascii.eqb a space && Ascii.eqb b space) eqn:E.
    + cbn [String.append has_double_space starts_with_space].
      rewrite IH1. reflexivity.
    + cbn [has_double_space]. rewrite IH2, orb_false_r.
      apply andb_false_iff in E. destruct E as [Ea | Eb].
      * now rewrite Ea.
      * rewrite (starts_with_space_converted _ _ Eb). apply andb_false_r.
Qed.

Lemma double_spaces_to_nbsp_id (s : string) :
  has_double_space s = false -> double_spaces_to_nbsp s = s.
Proof.
  enough (G : (has_double_space s = false -> double_spaces_to_nbsp s = s) /\
              forall a, has_double_space (String a s) = false ->
                        double_spaces_to_nbsp (String a s) = String a s)
    by exact (proj1 G).
  induction s as [|b rest [IH1 IH2]].
  - split; [reflexivity|]. intros a _. reflexivity.
  - split; [apply IH2|]. intros a H.
    rewrite double_spaces_to_nbsp_two.
    cbn [has_double_space starts_with_space] in H.
    apply orb_false_iff in H. destruct H as [E H].
    rewrite E. f_equal. apply IH2. exact H.
Qed.

Lemma html_body_converted (s : string) :
  html_body s = double_spaces_to_nbsp (newlines_to_br s).
Proof.
  unfold html_body. now rewrite replace_newlines, replace_double_spaces.
Qed.

(** X1: whatever the escaped message is, the body put between the
    [<pre>] tags contains no newline character and no two consecutive
    spaces. *)
Theorem html_body_has_no_raw_whitespace (escaped : string) :
  has_newline (html_body escaped) = false /\
  has_double_space (html_body escaped) = false.
Proof.
  rewrite html_body_converted. split.
  - rewrite double_spaces_keep_newlines. apply newlines_to_br_clean.
  - apply double_spaces_to_nbsp_clean.
Qed.

(** X2: an escaped message without a newline and without two consecutive
    spaces is the body as it is; and converting a body once more changes
    nothing. *)
Theorem html_body_keeps_plain_text (escaped : string) :
  (has_newline escaped = false -> has_double_space escaped = false ->
   html_body escaped = escaped) /\
  html_body (html_body escaped) = html_body escaped.
Proof.
  assert (I : forall s, has_newline s = false -> has_double_space s = false ->
                        html_body s = s).
  { intros s N D. rewrite html_body_converted.
    rewrite (newlines_to_br_id _ N). now apply double_spaces_to_nbsp_id. }
  split; [apply I|].
  apply I.
  - rewrite html_body_converted, double_spaces_keep_newlines.
    apply newlines_to_br_clean.
  - rewrite html_body_converted. apply double_spaces_to_nbsp_clean.
Qed.

(** *** The outcomes of a run *)

Lemma derive_reads_select {A : Type} (f : event -> option A) (env err : value) :
  (forall x, is_read x -> f x = None) ->
  select f (derive_reads env err) = [].
Proof.
  intros Hf. apply select_reads; [exact Hf | apply derive_reads_are_reads].
Qed.

Lemma ended_derive_reads (env err : value) :
  ended (derive_reads env err) = [].
Proof.
  apply derive_reads_select. intros [] He; try reflexivity; destruct He.
Qed.

Lemma applied_derive_reads (env err : value) :
  applied (derive_reads env err) = [].
Proof.
  apply derive_reads_select. intros [] He; try reflexivity; destruct He.
Qed.

Lemma written_derive_reads (env err : value) :
  written_statuses (derive_reads env err) = [].
Proof.
  apply derive_reads_select. intros [] He; try reflexivity; destruct He.
Qed.

Lemma deferred_derive_reads (env err : value) :
  deferred (derive_reads env err) = [].
Proof.
  apply derive_reads_select. intros [] He; try reflexivity; destruct He.
Qed.

Lemma completion_cases (c : completion unit) :
  c = Normal tt \/ exists e, c = Throw e.
Proof. destruct c as [[]|e]; eauto. Qed.

(** What a run adds to the chunks the response was ended with. *)
Lemma serve_ended (env : value) (opts : options) (err : value) (w : world) :
  w_listeners w = [] ->
  let run := serve env opts err w in
  (headersSent (w_res w) = true /\ fst run = Normal tt /\
   ended (w_trace (snd run)) = ended (w_trace w) ++ [Some ""]) \/
  (headersSent (w_res w) = false /\ (exists e, fst run = Throw e) /\
   ended (w_trace (snd run)) = ended (w_trace w)) \/
  (headersSent (w_res w) = false /\ fst run = Normal tt /\
   exists msg body,
     derived_message env err w = Normal msg /\
     createHtmlDocument msg = Normal body /\
     ended (w_trace (snd run)) =
       ended (w_trace w) ++
       [if String.eqb (req_method (w_req w)) "HEAD" then None
        else Some body]).
Proof.
  intros L run. destruct (headersSent (w_res w)) eqn:H.
  - left. destruct (serve_sent env opts err w H L) as [F T].
    split; [reflexivity|]. split; [exact F|].
    unfold run. rewrite T. unfold ended. rewrite !select_app.
    destruct (req_finished (w_req w)); cbn [select app];
      now rewrite ?app_nil_r.
  - right. destruct (completion_cases (fst run)) as [N | [e E]].
    + right. split; [reflexivity|]. split; [exact N|].
      pose proof (run_returned _ _ N) as R.
      destruct (serve_normal _ _ _ _ _ H L R) as (msg & body & D & C & W).
      exists msg, body. split; [exact D|]. split; [exact C|].
      fold run in W. rewrite W. cbn [w_trace].
      unfold ended at 1. rewrite !select_app. fold ended.
      rewrite ended_sending, ended_dispatch, ended_derive_reads.
      now rewrite !app_nil_r.
    + left. split; [reflexivity|]. split; [eauto|].
      now apply (serve_raises _ _ _ _ e H L).
Qed.

(** X3: a run ends the response at most once: exactly once when it
    returns, with the headers sent or not, and not at all when it
    raises. *)
Theorem response_ended_at_most_once (env : value) (opts : options)
  (err : value) (w : world) :
  w_listeners w = [] ->
  let run := serve env opts err w in
  exists chunks : list (option string),
    ended (w_trace (snd run)) = ended (w_trace w) ++ chunks /\
    (length chunks <= 1)%nat /\
    (fst run = Normal tt -> length chunks = 1%nat) /\
    (forall e, fst run = Throw e -> chunks = []).
Proof.
  intros L run.
  destruct (serve_ended env opts err w L)
    as [(_ & N & E) | [(_ & [e T] & E) | (_ & N & msg & body & _ & _ & E)]];
    fold run in N || fold run in T; fold run in E.
  - exists [Some ""]. split; [exact E|]. split; [simpl; lia|].
    split; [reflexivity|]. intros e T. rewrite N in T. discriminate.
  - exists []. split; [now rewrite app_nil_r|]. split; [simpl; lia|].
    split; [|reflexivity]. intros N. rewrite T in N. discriminate.
  - eexists. split; [exact E|]. split; [simpl; lia|].
    split; [reflexivity|]. intros e T. rewrite N in T. discriminate.
Qed.

(** X4: a run on a HEAD request never ends the response with a body:
    the only chunk it can pass is the empty string, when the headers
    were already sent. *)
Theorem head_request_gets_no_body (env : value) (opts : options)
  (err : value) (w : world) :
  w_listeners w = [] ->
  req_method (w_req w) = "HEAD" ->
  let run := serve env opts err w in
  exists chunks : list (option string),
    ended (w_trace (snd run)) = ended (w_trace w) ++ chunks /\
    forall chunk, In chunk chunks ->
      chunk = None \/ (headersSent (w_res w) = true /\ chunk = Some "").
Proof.
  intros L M run.
  destruct (serve_ended env opts err w L)
    as [(H & _ & E) | [(_ & _ & E) | (_ & _ & msg & body & _ & _ & E)]];
    fold run in E.
  - exists [Some ""]. split; [exact E|].
    intros chunk [<- | []]. right. split; [exact H | reflexivity].
  - exists []. split; [now rewrite app_nil_r|]. intros chunk [].
  - rewrite M in E. cbn [String.eqb Ascii.eqb Bool.eqb] in E.
    exists [None]. split; [exact E|]. intros chunk [<- | []]. now left.
Qed.

Lemma deferred_dispatch (opts : options) (err : value) (req : request)
  (status : number) :
  deferred (dispatch_events opts err req status) =
    if truthy err && truthy (opt_onerror opts)
    then [(opt_onerror opts, err)] else [].
Proof.
  unfold dispatch_events, notify_events.
  destruct (has_emit opts), (truthy err && truthy (opt_onerror opts));
    reflexivity.
Qed.

Lemma consulted_dispatch (opts : options) (err : value) (req : request)
  (status : number) :
  consulted (dispatch_events opts err req status) = [].
Proof.
  unfold dispatch_events, notify_events.
  destruct (has_emit opts), (truthy err && truthy (opt_onerror opts));
    reflexivity.
Qed.

Lemma called_dispatch (opts : options) (err : value) (req : request)
  (status : number) :
  called (dispatch_events opts err req status) = [].
Proof.
  unfold dispatch_events, notify_events.
  destruct (has_emit opts), (truthy err && truthy (opt_onerror opts));
    reflexivity.
Qed.

Lemma sending_select {A : Type} (f : event -> option A) (req : request)
  (status : number) (headers message : value) (body : string) :
  (forall e, is_response_write e -> f e = None) ->
  f EvUnpipe = None -> f EvResume = None -> f EvRequestFinished = None ->
  (forall l, f (EvOnFinished l) = None) ->
  select f (sending_events req status headers message body) = [].
Proof.
  intros Hw Hu Hr Hf Ho.
  assert (W : select f (write_events (req_method req) status headers body) = []).
  { pose proof (write_events_are_writes (req_method req) status headers body)
      as F.
    induction F as [|e l He _ IH]; [reflexivity|].
    cbn [select]. now rewrite (Hw e He). }
  unfold sending_events. destruct (req_finished req); [exact W|].
  cbn [app select]. now rewrite Hu, Ho, Hr, Hf.
Qed.

Lemma deferred_sending (req : request) (status : number)
  (headers message : value) (body : string) :
  deferred (sending_events req status headers message body) = [].
Proof.
  apply sending_select; try reflexivity.
  intros [] He; try reflexivity; destruct He.
Qed.

Lemma consulted_sending (req : request) (status : number)
  (headers message : value) (body : string) :
  consulted (sending_events req status headers message body) = [].
Proof.
  apply sending_select; try reflexivity.
  intros [] He; try reflexivity; destruct He.
Qed.

Lemma called_sending (req : request) (status : number)
  (headers message : value) (body : string) :
  called (sending_events req status headers message body) = [].
Proof.
  apply sending_select; try reflexivity.
  intros [] He; try reflexivity; destruct He.
Qed.

(** The projections of a run that returns. *)
Lemma serve_returns (env : value) (opts : options) (err : value) (w : world) :
  headersSent (w_res w) = false ->
  w_listeners w = [] ->
  let run := serve env opts err w in
  fst run = Normal tt ->
  exists msg body,
    derived_message env err w = Normal msg /\
    createHtmlDocument msg = Normal body /\
    w_res (snd run) = with_status (derived_status err (w_res w)) (w_res w) /\
    applied (w_trace (snd run)) =
      applied (w_trace w) ++ applied (header_events (derived_headers err)) ++
      standard_headers body /\
    written_statuses (w_trace (snd run)) =
      written_statuses (w_trace w) ++ [derived_status err (w_res w)] /\
    deferred (w_trace (snd run)) =
      deferred (w_trace w) ++
      (if truthy err && truthy (opt_onerror opts)
       then [(opt_onerror opts, err)] else []) /\
    consulted (w_trace (snd run)) =
      consulted (w_trace w) ++ consulted (derive_reads env err) /\
    called (w_trace (snd run)) =
      called (w_trace w) ++ called (derive_reads env err).
Proof.
  intros H L run N. pose proof (run_returned _ _ N) as R.
  destruct (serve_normal _ _ _ _ _ H L R) as (msg & body & D & C & W).
  exists msg, body. fold run in W. rewrite W. cbn [w_res w_trace].
  split; [exact D|]. split; [exact C|]. split; [reflexivity|].
  split; [|split; [|split; [|split]]].
  - unfold applied at 1. rewrite !select_app. fold applied.
    rewrite applied_sending, applied_dispatch, applied_derive_reads.
    cbn [app]. now rewrite app_nil_r.
  - unfold written_statuses at 1. rewrite !select_app.
    fold written_statuses.
    rewrite written_sending, written_dispatch, written_derive_reads.
    cbn [app]. now rewrite app_nil_r.
  - unfold deferred at 1. rewrite !select_app. fold deferred.
    rewrite deferred_dispatch, deferred_derive_reads, deferred_sending.
    cbn [app]. now rewrite app_nil_r.
  - unfold consulted at 1. rewrite !select_app. fold consulted.
    rewrite consulted_dispatch, consulted_sending.
    now rewrite !app_nil_r.
  - unfold called at 1. rewrite !select_app. fold called.
    rewrite called_dispatch, called_sending.
    now rewrite !app_nil_r.
Qed.

(** *** The response that is written *)

Lemma final_header_standard (pre : list (string * value)) (body : string)
  (name : string) (v : value) :
  In (name, v) (standard_headers body) ->
  final_header name (pre ++ standard_headers body) = Some v.
Proof.
  intros H. unfold final_header. rewrite rev_app_distr.
  unfold standard_headers in *. cbn [rev app].
  destruct H as [E | [E | [E | [E | []]]]];
    injection E as <- <-; vm_compute; reflexivity.
Qed.

(** X5: in a run that returns with the headers not sent before, the
    response is consistent: its status message is the phrase of the
    status written; whatever headers the error brought, under any
    spelling of their names, the response ends up with the four
    standard headers, among them the byte length of the document as
    [Content-Length]; and the chunk passed to [end] is that document,
    or nothing for HEAD. *)
Theorem response_is_consistent (env : value) (opts : options)
  (err : value) (w : world) :
  headersSent (w_res w) = false ->
  w_listeners w = [] ->
  let run := serve env opts err w in
  fst run = Normal tt ->
  exists (s : number) (body : string),
    res_statusCode (w_res (snd run)) = VNumber s /\
    res_statusMessage (w_res (snd run)) = canonical_message s /\
    (forall name v,
        In (name, v) (standard_headers body) ->
        final_header name (applied (w_trace (snd run))) = Some v) /\
    ended (w_trace (snd run)) =
      ended (w_trace w) ++
      [if String.eqb (req_method (w_req w)) "HEAD" then None
       else Some body].
Proof.
  intros H L run N.
  destruct (serve_returns env opts err w H L N)
    as (msg & body & D & C & R & A & _).
  fold run in R, A.
  exists (derived_status err (w_res w)), body.
  split; [now rewrite R|]. split; [|split].
  - rewrite R. cbn [with_status res_statusMessage].
    apply reason_phrase_canonical.
  - intros name v I. rewrite A, app_assoc.
    now apply final_header_standard.
  - destruct (serve_ended env opts err w L)
      as [(H' & _) | [(_ & [e T] & _) | (_ & _ & msg' & body' & D' & C' & E)]].
    + congruence.
    + fold run in T. congruence.
    + fold run in E. rewrite D in D'. injection D' as <-.
      rewrite C in C'. injection C' as <-. exact E.
Qed.

(** X6: without an error, and any falsy value counts as none, a run with
    the headers not sent returns whatever the environment and the
    status code of the response are: the status is 404, the only
    headers are the standard ones, the document says
    "Cannot METHOD resource", no callback is scheduled and nothing of
    the value is read. *)
Theorem not_found_response (env : value) (opts : options) (err : value)
  (w : world) :
  truthy err = false ->
  headersSent (w_res w) = false ->
  w_listeners w = [] ->
  let run := serve env opts err w in
  let body :=
    html_document ("Cannot " ++ req_method (w_req w) ++ " " ++
                   encodeUrl (getResourceName (w_req w))) in
  fst run = Normal tt /\
  written_statuses (w_trace (snd run)) =
    written_statuses (w_trace w) ++ [Num.of_Z 404] /\
  applied (w_trace (snd run)) = applied (w_trace w) ++ standard_headers body /\
  ended (w_trace (snd run)) =
    ended (w_trace w) ++
    [if String.eqb (req_method (w_req w)) "HEAD" then None else Some body] /\
  deferred (w_trace (snd run)) = deferred (w_trace w) /\
  consulted (w_trace (snd run)) = consulted (w_trace w).
Proof.
  intros T H L run body.
  assert (D : derived_message env err w =
              Normal (VString ("Cannot " ++ req_method (w_req w) ++ " " ++
                               encodeUrl (getResourceName (w_req w)))))
    by (unfold derived_message; now rewrite T).
  assert (N : fst run = Normal tt).
  { unfold run. rewrite (serve_run _ _ _ _ H L), D. cbv zeta.
    now rewrite createHtmlDocument_string. }
  split; [exact N|].
  destruct (serve_returns env opts err w H L N)
    as (msg & body' & D' & C & _ & A & W & F & R & _).
  fold run in A, W, F, R.
  rewrite D in D'. injection D' as <-.
  rewrite createHtmlDocument_string in C. injection C as <-.
  fold body in A.
  assert (S : derived_status err (w_res w) = Num.of_Z 404)
    by (unfold derived_status; now rewrite T).
  assert (Hd : derived_headers err = VUndefined)
    by (unfold derived_headers; now rewrite T).
  split; [now rewrite W, S|]. split; [now rewrite A, Hd|].
  split; [|split].
  - destruct (serve_ended env opts err w L)
      as [(H' & _) | [(_ & [e E] & _) | (_ & _ & msg' & body' & D' & C' & E)]].
    + congruence.
    + fold run in E. congruence.
    + fold run in E. rewrite D in D'. injection D' as <-.
      rewrite createHtmlDocument_string in C'. injection C' as <-. exact E.
  - rewrite F, T. cbn [andb]. now rewrite app_nil_r.
  - rewrite R. unfold derive_reads. rewrite T. cbn. now rewrite app_nil_r.
Qed.

(** *** The environment and the message *)

Lemma handle_serve (node_env : value) (options_arg : option options)
  (err : value) (w : world) :
  handle node_env options_arg err w =
    serve (resolved_env node_env options_arg) (given_options options_arg)
      err w.
Proof. reflexivity. Qed.

Lemma strict_eq_string_inv (v : value) (s : string) :
  strict_eq_string v s = true -> v = VString s.
Proof.
  destruct v; try discriminate. cbn. intros E.
  apply String.eqb_eq in E. now subst.
Qed.

Lemma production_mode_resolved (node_env : value)
  (options_arg : option options) :
  production_mode node_env options_arg ->
  resolved_env node_env options_arg = VString "production".
Proof.
  unfold production_mode, resolved_env, js_or.
  intros [P | [F P]].
  - apply strict_eq_string_inv in P. now rewrite P.
  - rewrite F. apply strict_eq_string_inv in P. now rewrite P.
Qed.

Lemma consulted_repeat (k : string) (n : nat) :
  consulted (repeat (EvErrGet k) n) = repeat k n.
Proof. induction n; cbn; [reflexivity | now f_equal]. Qed.

Lemma called_repeat (k : string) (n : nat) :
  called (repeat (EvErrGet k) n) = [].
Proof. induction n; cbn; [reflexivity | assumption]. Qed.

Lemma status_reads_repeat (k : string) (v : value) :
  exists n, status_reads k v = repeat (EvErrGet k) n.
Proof.
  unfold status_reads. destruct v; try (now exists 1%nat).
  destruct (Num.ge _ _); [destruct (Num.lt _ _)|]; eauto.
Qed.

Lemma error_headers_reads_repeat (err : value) :
  exists n, error_headers_reads err = repeat (EvErrGet "headers") n.
Proof.
  unfold error_headers_reads.
  destruct (negb _); [now exists 1%nat|]. destruct (negb _); eauto.
Qed.

(** What the derivation of the status and the headers reads. *)
Lemma status_and_headers_reads (err : value) :
  let reads :=
    error_status_reads err ++
    match error_status err with
    | Some _ => error_headers_reads err
    | None => []
    end in
  called reads = [] /\
  forall k, In k (consulted reads) ->
            k = "status" \/ k = "statusCode" \/ k = "headers".
Proof.
  cbv zeta. unfold error_status_reads.
  destruct (status_reads_repeat "status" (lookup err "status")) as [n1 ->].
  destruct (status_reads_repeat "statusCode" (lookup err "statusCode"))
    as [n2 ->].
  destruct (error_headers_reads_repeat err) as [n3 ->].
  assert (Z : called (@nil event) = []) by reflexivity.
  assert (Z' : consulted (@nil event) = []) by reflexivity.
  split.
  - unfold called. rewrite !select_app. fold called.
    destruct (accepted _), (error_status err);
      rewrite ?called_repeat, ?Z; reflexivity.
  - intros k. unfold consulted. rewrite !select_app. fold consulted.
    intros I. apply in_app_or in I. destruct I as [I | I].
    + apply in_app_or in I. destruct I as [I | I].
      * rewrite consulted_repeat in I. apply repeat_spec in I. auto.
      * destruct (accepted _); [destruct I|].
        rewrite consulted_repeat in I. apply repeat_spec in I. auto.
    + destruct (error_status err); [|destruct I].
      rewrite consulted_repeat in I. apply repeat_spec in I. auto.
Qed.

(** A handler built for production, when nothing fails. *)
Lemma production_run (node_env : value)
  (options_arg : option options) (err : value) (w : world) :
  production_mode node_env options_arg ->
  truthy err = true ->
  headersSent (w_res w) = false ->
  w_listeners w = [] ->
  let run := handle node_env options_arg err w in
  fst run = Normal tt /\
  (exists phrase : string,
      canonical_message (derived_status err (w_res w)) = VString phrase /\
      ended (w_trace (snd run)) =
        ended (w_trace w) ++
        [if String.eqb (req_method (w_req w)) "HEAD" then None
         else Some (html_document phrase)]) /\
  called (w_trace (snd run)) = called (w_trace w) /\
  (forall k, In k (consulted (w_trace (snd run))) ->
             In k (consulted (w_trace w)) \/
             k = "status" \/ k = "statusCode" \/ k = "headers").
Proof.
  intros P T H L run.
  pose proof (production_mode_resolved _ _ P) as E.
  set (env := resolved_env node_env options_arg) in *.
  set (opts := given_options options_arg).
  assert (Pe : strict_eq_string env "production" = true) by now rewrite E.
  destruct (canonical_message_string (derived_status err (w_res w)))
    as [phrase Hp].
  assert (D : derived_message env err w = Normal (VString phrase)).
  { unfold derived_message. rewrite T.
    rewrite (error_message_fallback _ _ _ (or_introl Pe)). now rewrite Hp. }
  assert (N : fst run = Normal tt).
  { unfold run. rewrite handle_serve. fold env opts.
    rewrite (serve_run _ _ _ _ H L), D. cbv zeta.
    now rewrite createHtmlDocument_string. }
  split; [exact N|].
  unfold run in *. rewrite handle_serve in *. fold env opts in N |- *.
  destruct (serve_returns env opts err w H L N)
    as (msg & body & D' & C & _ & _ & _ & _ & R & K).
  rewrite D in D'. injection D' as <-.
  rewrite createHtmlDocument_string in C. injection C as <-.
  assert (Reads : derive_reads env err =
                  error_status_reads err ++
                  match error_status err with
                  | Some _ => error_headers_reads err
                  | None => []
                  end).
  { unfold derive_reads, error_message_reads. rewrite T, Pe.
    now rewrite app_nil_r. }
  destruct (status_and_headers_reads err) as [Kc Kr].
  split; [|split].
  - exists phrase. split; [exact Hp|].
    destruct (serve_ended env opts err w L)
      as [(H' & _) | [(_ & [e X] & _) | (_ & _ & msg' & body' & D' & C' & X)]].
    + congruence.
    + congruence.
    + rewrite D in D'. injection D' as <-.
      rewrite createHtmlDocument_string in C'. injection C' as <-. exact X.
  - rewrite K, Reads, Kc. now rewrite app_nil_r.
  - intros k I. rewrite R, Reads in I. apply in_app_or in I.
    destruct I as [I | I]; [now left | right; now apply Kr].
Qed.

Lemma handle_with_serve (f : faults) (node_env : value)
  (options_arg : option options) (err : value) (w : world) :
  handle_with f node_env options_arg err w =
    serve_with f (resolved_env node_env options_arg)
      (given_options options_arg) err w.
Proof. reflexivity. Qed.


(** X8: outside production, and every environment other than the
    string "production" is, the message is the stack of the error when
    that is truthy; without one it is what [toString] returns when that
    is a function returning a truthy value, and what [toString] throws
    is thrown on. *)
Theorem detail_outside_production (err : value) (status : number)
  (env : value) (w : world) :
  truthy err = true ->
  strict_eq_string env "production" = false ->
  (truthy (lookup err "stack") = true ->
   fst (getErrorMessage err status env w) = Normal (lookup err "stack")) /\
  (truthy (lookup err "stack") = false ->
   is_function (lookup err "toString") = true ->
   (forall m, call (lookup err "toString") err = Normal m ->
              truthy m = true ->
              fst (getErrorMessage err status env w) = Normal m) /\
   (forall e, call (lookup err "toString") err = Throw e ->
              fst (getErrorMessage err status env w) = Throw e)).
Proof.
  intros T P. rewrite (getErrorMessage_run _ _ _ _ T). cbn [fst].
  unfold error_message. rewrite P. split.
  - intros S. rewrite S. unfold js_or. now rewrite S.
  - intros S F. rewrite S, F. split.
    + intros m C M. rewrite C. unfold js_or. now rewrite M.
    + intros e C. now rewrite C.
Qed.

(** *** The error callback *)

Lemma split_after_prefix (A tail pre post : list event) (x : event) :
  Forall (fun e => ~ is_response_write e) A ->
  is_response_write x ->
  A ++ tail = pre ++ x :: post ->
  exists before, tail = before ++ x :: post.
Proof.
  intros F X. revert pre. induction F as [|a A Ha _ IH]; intros pre E.
  - exists pre. exact E.
  - destruct pre as [|p pre].
    + cbn in E. injection E as -> _. contradiction.
    + cbn in E. injection E as _ E. now apply (IH pre).
Qed.

Lemma reads_are_no_writes (l : list event) :
  Forall is_read l -> Forall (fun e => ~ is_response_write e) l.
Proof.
  intros F. eapply Forall_impl; [|exact F].
  intros [] R W; destruct R; destruct W.
Qed.

Lemma dispatch_events_are_no_writes (opts : options) (err : value)
  (req : request) (status : number) :
  Forall (fun e => ~ is_response_write e)
         (dispatch_events opts err req status).
Proof.
  unfold dispatch_events, notify_events.
  destruct (has_emit opts), (truthy err && truthy (opt_onerror opts));
    repeat constructor; intros [].
Qed.

Lemma deferred_write_events (method : string) (status : number)
  (headers : value) (body : string) :
  deferred (write_events method status headers body) = [].
Proof.
  pose proof (write_events_are_writes method status headers body) as F.
  induction F as [|e l He _ IH]; [reflexivity|].
  destruct e; try destruct He; exact IH.
Qed.

(** The trace of an invocation whose derivation returned: the reads,
    the dispatch, and what [sendResponse] did at once. *)
Lemma finish_trace (env : value) (opts : options) (err : value) (w : world)
  (msg : value) :
  headersSent (w_res w) = false ->
  derived_message env err w = Normal msg ->
  exists tail,
    w_trace (snd (finish env opts err w)) =
      w_trace w ++
      (derive_reads env err ++
       dispatch_events opts err (w_req w) (derived_status err (w_res w))) ++
      tail /\
    deferred tail = [].
Proof.
  intros H D. rewrite (finish_run _ _ _ _ H), D. cbv zeta.
  rewrite sendResponse_run. cbn [happens w_req].
  destruct (req_finished (w_req w)).
  - rewrite write_run. destruct (createHtmlDocument msg) as [body|e].
    + eexists. cbn [snd w_trace happens w_req]. split.
      * rewrite <- !app_assoc. reflexivity.
      * apply deferred_write_events.
    + exists []. cbn [snd w_trace happens]. split; [|reflexivity].
      now rewrite app_nil_r.
  - eexists. cbn [snd w_trace happens]. split.
    + rewrite <- !app_assoc. reflexivity.
    + reflexivity.
Qed.

(** X9: the callback [onerror] is scheduled, once, exactly when there is
    an error and the option is truthy, and only if the headers were not
    sent and the derivation of the message returned; with the headers
    sent, or when the derivation raises, it is not scheduled at all.
    It is scheduled before anything is written to the response. *)
Theorem onerror_scheduled_before_response (env : value) (opts : options)
  (err : value) (w : world) :
  let after := w_trace (snd (finish env opts err w)) in
  (headersSent (w_res w) = true -> deferred after = deferred (w_trace w)) /\
  (headersSent (w_res w) = false ->
   forall e, derived_message env err w = Throw e ->
             deferred after = deferred (w_trace w)) /\
  (headersSent (w_res w) = false ->
   forall msg, derived_message env err w = Normal msg ->
     deferred after =
       deferred (w_trace w) ++
       (if truthy err && truthy (opt_onerror opts)
        then [(opt_onerror opts, err)] else []) /\
     forall pre x post,
       after = w_trace w ++ pre ++ x :: post ->
       is_response_write x ->
       deferred post = []).
Proof.
  intros after. split; [|split].
  - intros H. unfold after. rewrite (finish_sent _ _ _ _ H).
    cbn [snd happens w_trace]. unfold deferred. rewrite select_app.
    cbn [select]. now rewrite app_nil_r.
  - intros H e D. unfold after. rewrite (finish_run _ _ _ _ H), D.
    cbn [snd happens w_trace]. unfold deferred. rewrite select_app.
    fold deferred. rewrite deferred_derive_reads. now rewrite app_nil_r.
  - intros H msg D.
    destruct (finish_trace env opts err w msg H D) as (tail & T & Z).
    fold after in T. split.
    + rewrite T. unfold deferred at 1. rewrite !select_app. fold deferred.
      rewrite deferred_derive_reads, deferred_dispatch, Z.
      cbn [app]. now rewrite app_nil_r.
    + intros pre x post E X. rewrite T in E. apply app_inv_head in E.
      apply split_after_prefix in E; [|  | exact X].
      * destruct E as [before ->]. unfold deferred in Z.
        rewrite select_app in Z. apply app_eq_nil in Z. destruct Z as [_ Z].
        destruct x; try destruct X; exact Z.
      * apply Forall_app. split.
        -- apply reads_are_no_writes, derive_reads_are_reads.
        -- apply dispatch_events_are_no_writes.
Qed.

(** *** The deferred write *)

(** X10: when the request had not finished, the response that is
    written once it has is the one decided at the invocation: whatever
    status code and status message the response got in the meantime,
    the listener writes the status, the headers and the document
    derived when the handler was called. *)
Theorem deferred_write_is_decided_at_the_call (env : value)
  (opts : options) (err : value) (w : world) (msg : value) (body : string)
  (code phrase : value) :
  headersSent (w_res w) = false ->
  w_listeners w = [] ->
  req_finished (w_req w) = false ->
  derived_message env err w = Normal msg ->
  createHtmlDocument msg = Normal body ->
  let called_back := snd (finish env opts err w) in
  let changed :=
    mkWorld (w_req called_back)
      (mkResponse code phrase (res_headersSent (w_res w))
         (res__header (w_res w)))
      (w_listeners called_back) (w_trace called_back) in
  let status := derived_status err (w_res w) in
  fst (request_finishes changed) = Normal tt /\
  w_trace (snd (request_finishes changed)) =
    w_trace called_back ++ EvRequestFinished ::
    write_events (req_method (w_req w)) status (derived_headers err) body /\
  res_statusCode (w_res (snd (request_finishes changed))) = VNumber status /\
  res_statusMessage (w_res (snd (request_finishes changed))) =
    canonical_message status.
Proof.
  intros H L F D C called_back changed status.
  assert (E : called_back =
              mkWorld (drained (w_req w)) (w_res w)
                [WriteListener status (derived_headers err) msg]
                (w_trace w ++
                 (derive_reads env err ++
                  dispatch_events opts err (w_req w) status) ++
                 [EvUnpipe;
                  EvOnFinished (WriteListener status (derived_headers err) msg);
                  EvResume])).
  { unfold called_back. rewrite (finish_run _ _ _ _ H), D. cbv zeta.
    rewrite sendResponse_run. cbn [happens w_req w_res w_listeners w_trace].
    rewrite F, L. cbn [snd app]. fold status.
    now rewrite <- !app_assoc. }
  assert (Lc : w_listeners changed =
               [WriteListener status (derived_headers err) msg])
    by (unfold changed; now rewrite E).
  rewrite (request_finishes_run _ _ Lc), C.
  cbn [fst snd w_trace w_res res_statusCode res_statusMessage with_status].
  split; [reflexivity|]. split; [|split].
  - unfold changed. cbn [w_trace w_req]. rewrite E. reflexivity.
  - reflexivity.
  - apply reason_phrase_canonical.
Qed.

(** *** The headers taken from the error *)

(** X11: the headers taken from an error are a snapshot without a
    prototype of the own properties of [err.headers], in their order:
    what [err.headers] only inherits is not taken, and a key that is not
    its own reads as [undefined] on the snapshot.  A [headers] that is
    falsy or not of type "object" (a string, a number, a function) gives
    [undefined]. *)
Theorem error_headers_snapshot (err : value) (w : world) :
  truthy err = true ->
  (forall own protos,
      lookup err "headers" = VObject own protos ->
      NoDup (map fst own) ->
      fst (getErrorHeaders err w) = Normal (VObject own []) /\
      forall k, ~ In k (map fst own) -> lookup (VObject own []) k = VUndefined) /\
  (genuine_object (lookup err "headers") = false ->
   fst (getErrorHeaders err w) = Normal VUndefined).
Proof.
  intros T. rewrite (getErrorHeaders_run _ _ T). cbn [fst].
  unfold error_headers. split.
  - intros own protos E Hnd. rewrite E.
    cbn [genuine_object truthy typeof andb Object_keys String.eqb Ascii.eqb
         Bool.eqb].
    rewrite (copied_own _ _ Hnd). split; [reflexivity|].
    intros k Hk. unfold lookup, get. cbn [chain_lookup].
    now rewrite (assoc_notin _ _ Hk).
  - intros G. now rewrite G.
Qed.

End Finalhandler.

(** * The handler on the sample instance *)

Abbreviation sample_finish :=
  (finish Sample.number_to_string Sample.statuses_message Sample.escapeHtml
     Sample.encodeUrl Sample.parseUrl_original Sample.Buffer_byteLength).

Abbreviation sample_serve :=
  (serve Sample.number_to_string Sample.statuses_message Sample.escapeHtml
     Sample.encodeUrl Sample.parseUrl_original Sample.Buffer_byteLength).

Abbreviation sample_finalhandler :=
  (finalhandler Sample.number_to_string Sample.statuses_message
     Sample.escapeHtml Sample.encodeUrl Sample.parseUrl_original
     Sample.Buffer_byteLength).

Abbreviation sample_document :=
  (html_document Sample.escapeHtml).

Abbreviation development := (VString "development").

(** [GET /foo] with the request stream finished, and not yet finished. *)
Abbreviation get_foo := (Sample.fresh "GET" "/foo" true).
Abbreviation get_foo_pending := (Sample.fresh "GET" "/foo" false).

(** The cases of the test suite. *)

Example should_404_on_no_error :
  let run := sample_finalhandler VUndefined None VUndefined get_foo in
  fst run = Normal tt /\
  res_statusCode (w_res (snd run)) = VNumber (Num.of_Z 404) /\
  ended (w_trace (snd run)) = [Some (sample_document "Cannot GET /foo")].
Proof. vm_compute. repeat split; reflexivity. Qed.

Example should_handle_non_error_objects :
  let run :=
    sample_finalhandler VUndefined None (VString "lame string") get_foo in
  fst run = Normal tt /\
  res_statusCode (w_res (snd run)) = VNumber (Num.of_Z 500) /\
  ended (w_trace (snd run)) = [Some (sample_document "lame string")].
Proof. vm_compute. repeat split; reflexivity. Qed.

Example should_handle_null_prototype_objects :
  let run := sample_finalhandler VUndefined None (VObject [] []) get_foo in
  fst run = Normal tt /\
  ended (w_trace (snd run)) = [Some (sample_document "Internal Server Error")].
Proof. vm_compute. repeat split; reflexivity. Qed.

Example should_use_statusCode_over_invalid_status :
  fst (getErrorStatusCode
         (Sample.createError "nope" [("status", VNumber (Num.of_Z 50));
                                     ("statusCode", VNumber (Num.of_Z 410))])
         get_foo) = Normal (Some (Num.of_Z 410)).
Proof. vm_compute. reflexivity. Qed.

Example should_include_error_stack :
  html_body "Error: boom!
    at" = "Error: boom!<br> &nbsp; &nbsp;at".
Proof. vm_compute. reflexivity. Qed.

Example should_escape_before_converting :
  html_body (Sample.escapeHtml "a<b
  c") = "a&lt;b<br> &nbsp;c".
Proof. vm_compute. reflexivity. Qed.

Example should_keep_response_status_when_valid :
  getResponseStatusCode
    (mkResponse (VNumber (Num.of_Z 503)) VUndefined (VBool false) VNull) =
    Num.of_Z 503 /\
  getResponseStatusCode
    (mkResponse (VString "oh no") VUndefined (VBool false) VNull) =
    Num.of_Z 500.
Proof. vm_compute. split; reflexivity. Qed.

(** * Instances and counterexamples *)

Abbreviation sample_finish_with :=
  (finish_with Sample.number_to_string Sample.statuses_message
     Sample.escapeHtml Sample.encodeUrl Sample.parseUrl_original
     Sample.Buffer_byteLength).

Abbreviation sample_serve_with :=
  (serve_with Sample.number_to_string Sample.statuses_message
     Sample.escapeHtml Sample.encodeUrl Sample.parseUrl_original
     Sample.Buffer_byteLength).

Abbreviation sample_handle_with :=
  (handle_with Sample.number_to_string Sample.statuses_message
     Sample.escapeHtml Sample.encodeUrl Sample.parseUrl_original
     Sample.Buffer_byteLength).

Abbreviation sample_undisturbed :=
  (undisturbed Sample.number_to_string Sample.statuses_message
     Sample.escapeHtml Sample.encodeUrl Sample.parseUrl_original
     Sample.Buffer_byteLength).

Lemma primary_status_wins_witness :
  truthy Sample.conflicting_error = true /\
  getErrorStatusCode Sample.conflicting_error get_foo =
    (Normal (Some (Num.of_Z 400)),
     happens (repeat (EvErrGet "status") 4) get_foo).
Proof.
  split; [reflexivity|].
  apply (proj1 (primary_status_wins Sample.conflicting_error get_foo eq_refl)).
  - reflexivity.
  - split; [discriminate | reflexivity].
Defined.


(** C3: with [res.statusCode = NaN] and an error without a status of
    its own the fallback returns [NaN] and [NaN] is the status assigned
    to the response, where the comment in the source promises 500 for
    every value outside the valid range. *)
Lemma nan_status_code_is_kept :
  let err := Sample.createError "oops" [] in
  let w := Sample.with_nan_status get_foo in
  error_status err = None /\
  getResponseStatusCode (w_res w) = Num.NaN /\
  fst (sample_serve development no_options err w) = Normal tt /\
  written_statuses (w_trace (snd (sample_serve development no_options err w))) =
    [Num.NaN] /\
  res_statusCode (w_res (snd (sample_serve development no_options err w))) =
    VNumber Num.NaN.
Proof. vm_compute. repeat split; reflexivity. Qed.



Lemma headers_sent_guard_witness :
  headersSent (w_res (Sample.sent get_foo_pending)) = true /\
  sample_finish development Sample.with_app Sample.error_with_headers
    (Sample.sent get_foo_pending) =
    (Normal tt,
     mkWorld (w_req get_foo_pending) (w_res (Sample.sent get_foo_pending)) []
       [EvDebug "cannot %d after headers sent" [VUndefined];
        EvEnd (Some "")]).
Proof.
  split; [reflexivity|].
  exact (headers_sent_guard
           Sample.number_to_string Sample.statuses_message
           Sample.escapeHtml Sample.encodeUrl Sample.parseUrl_original
           Sample.Buffer_byteLength development Sample.with_app
           Sample.error_with_headers (Sample.sent get_foo_pending) eq_refl).
Defined.


Lemma body_written_after_request_finished_witness :
  createHtmlDocument Sample.number_to_string Sample.escapeHtml
    (VString "Cannot GET /foo") =
    Normal (sample_document "Cannot GET /foo") /\
  w_listeners get_foo_pending = [] /\
  req_finished (w_req get_foo_pending) = false /\
  exists w1 w2 : world,
    sendResponse Sample.number_to_string Sample.statuses_message
      Sample.escapeHtml Sample.Buffer_byteLength
      (Num.of_Z 404) VUndefined (VString "Cannot GET /foo") get_foo_pending =
      (Normal tt, w1) /\
    ended (w_trace w1) = [] /\
    request_finishes Sample.number_to_string Sample.statuses_message
      Sample.escapeHtml Sample.Buffer_byteLength w1 = (Normal tt, w2) /\
    w_trace w2 =
      w_trace w1 ++ EvRequestFinished ::
      write_events Sample.number_to_string Sample.statuses_message
        Sample.Buffer_byteLength "GET" (Num.of_Z 404) VUndefined
        (sample_document "Cannot GET /foo").
Proof.
  split; [reflexivity|]. split; [reflexivity|]. split; [reflexivity|].
  destruct (proj2 (body_written_after_request_finished
              Sample.number_to_string Sample.statuses_message
              Sample.escapeHtml Sample.Buffer_byteLength
              (Num.of_Z 404) VUndefined (VString "Cannot GET /foo")
              (sample_document "Cannot GET /foo") get_foo_pending
              eq_refl eq_refl) eq_refl)
    as (w1 & w2 & S & T1 & _ & _ & _ & _ & R & T2 & _).
  exists w1, w2. split; [exact S|]. split; [|split; [exact R | exact T2]].
  rewrite T1. reflexivity.
Defined.



(** The assumptions of C9 are needed.  A getter of the error that
    throws is not caught either: with a [status] accessor that throws,
    the invocation throws on its first read, also in production. *)
Lemma throwing_getter_escapes :
  well_behaved Sample.number_to_string development Sample.not_implemented /\
  fst (sample_finish_with Sample.throwing_status_getter development
         no_options Sample.not_implemented get_foo) = Throw (VString "boom") /\
  fst (sample_handle_with Sample.throwing_status_getter Sample.production
         None Sample.not_implemented get_foo) = Throw (VString "boom") /\
  w_trace (snd (sample_finish_with Sample.throwing_status_getter development
                  no_options Sample.not_implemented get_foo)) =
    [EvErrGet "status"].
Proof.
  split.
  - right. left. split; [reflexivity|].
    exists ("Error: boom!" ++ NEWLINE_REGEXP ++ "    at test.js:1:1")%string.
    reflexivity.
  - vm_compute. repeat split; reflexivity.
Qed.

(** Nor is what the response throws: a header name taken from
    [err.headers] that the response refuses ends the invocation after
    the status was assigned and before the response is ended. *)
Lemma refused_header_escapes :
  well_behaved Sample.number_to_string development Sample.bad_header_name /\
  fst (sample_finish_with Sample.strict_response development no_options
         Sample.bad_header_name get_foo) =
    Throw (TypeError "Invalid character in header name") /\
  written_statuses
    (w_trace (snd (sample_finish_with Sample.strict_response development
                     no_options Sample.bad_header_name get_foo))) =
    [Num.of_Z 400] /\
  ended (w_trace (snd (sample_finish_with Sample.strict_response development
                         no_options Sample.bad_header_name get_foo))) = [].
Proof.
  split.
  - right. left. split; [reflexivity|].
    exists ("Error: oops" ++ NEWLINE_REGEXP ++ "    at test.js:1:1")%string.
    reflexivity.
  - vm_compute. repeat split; reflexivity.
Qed.

Lemma error_dispatch_emitted_once_witness :
  headersSent (w_res get_foo) = false /\
  has_emit Sample.with_app = true /\
  emitted (w_trace (snd (sample_finish development Sample.with_app
                           VUndefined get_foo))) =
    [("errorDispatch",
      VObject [("method", VString "GET"); ("url", VString "/foo")]
              [Object_prototype])].
Proof.
  split; [reflexivity|]. split; [reflexivity|].
  exact (proj1 (error_dispatch_emitted_once
           Sample.number_to_string Sample.statuses_message
           Sample.escapeHtml Sample.encodeUrl Sample.parseUrl_original
           Sample.Buffer_byteLength development Sample.with_app
           VUndefined get_foo eq_refl eq_refl)
           (ex_intro _ (VString "Cannot GET /foo") eq_refl)).
Defined.

(** C10, the claim as stated fails: with the headers not sent and an
    app that has an [emit] function, an error whose [toString] throws
    ends the invocation before the event is emitted. *)
Lemma no_dispatch_when_toString_throws :
  headersSent (w_res get_foo) = false /\
  has_emit Sample.with_app = true /\
  fst (sample_finish development Sample.with_app Sample.throwing_toString
         get_foo) = Throw (VString "boom") /\
  emitted (w_trace (snd (sample_finish development Sample.with_app
                           Sample.throwing_toString get_foo))) = [].
Proof. vm_compute. repeat split; reflexivity. Qed.

(** * Instances of the further properties *)

Abbreviation sample_handle :=
  (handle Sample.number_to_string Sample.statuses_message Sample.escapeHtml
     Sample.encodeUrl Sample.parseUrl_original Sample.Buffer_byteLength).

Abbreviation head_foo := (Sample.fresh "HEAD" "/foo" true).

Lemma response_ended_at_most_once_witness :
  w_listeners get_foo_pending = [] /\
  exists chunks : list (option string),
    ended (w_trace (snd (sample_serve development no_options
                           Sample.error_with_headers get_foo_pending))) =
      chunks /\
    (length chunks <= 1)%nat.
Proof.
  split; [reflexivity|].
  destruct (response_ended_at_most_once
              Sample.number_to_string Sample.statuses_message
              Sample.escapeHtml Sample.encodeUrl Sample.parseUrl_original
              Sample.Buffer_byteLength development no_options
              Sample.error_with_headers get_foo_pending eq_refl)
    as (chunks & E & B & _).
  exists chunks. split; [exact E | exact B].
Defined.

Lemma head_request_gets_no_body_witness :
  w_listeners head_foo = [] /\
  req_method (w_req head_foo) = "HEAD" /\
  exists chunks : list (option string),
    ended (w_trace (snd (sample_serve development no_options
                           Sample.not_implemented head_foo))) = chunks /\
    forall chunk, In chunk chunks ->
      chunk = None \/ (headersSent (w_res head_foo) = true /\ chunk = Some "").
Proof.
  split; [reflexivity|]. split; [reflexivity|].
  destruct (head_request_gets_no_body
              Sample.number_to_string Sample.statuses_message
              Sample.escapeHtml Sample.encodeUrl Sample.parseUrl_original
              Sample.Buffer_byteLength development no_options
              Sample.not_implemented head_foo eq_refl eq_refl)
    as (chunks & E & B).
  exists chunks. split; [exact E | exact B].
Defined.

Lemma response_is_consistent_witness :
  headersSent (w_res get_foo) = false /\
  w_listeners get_foo = [] /\
  fst (sample_serve development no_options Sample.shadowing_error get_foo) =
    Normal tt /\
  final_header "Content-Type"
    (applied (w_trace (snd (sample_serve development no_options
                              Sample.shadowing_error get_foo)))) =
    Some (VString "text/html; charset=utf-8") /\
  final_header "X-Content-Type-Options"
    (applied (w_trace (snd (sample_serve development no_options
                              Sample.shadowing_error get_foo)))) =
    Some (VString "nosniff").
Proof.
  split; [reflexivity|]. split; [reflexivity|].
  assert (N : fst (sample_serve development no_options Sample.shadowing_error
                     get_foo) = Normal tt) by (vm_compute; reflexivity).
  split; [exact N|].
  destruct (response_is_consistent
              Sample.number_to_string Sample.statuses_message
              Sample.escapeHtml Sample.encodeUrl Sample.parseUrl_original
              Sample.Buffer_byteLength development no_options
              Sample.shadowing_error get_foo eq_refl eq_refl N)
    as (s & body & _ & _ & F & _).
  split; apply F.
  - right. right. left. reflexivity.
  - right. left. reflexivity.
Defined.

Lemma not_found_response_witness :
  truthy (VString "") = false /\
  headersSent (w_res get_foo) = false /\
  w_listeners get_foo = [] /\
  fst (sample_serve Sample.production no_options (VString "") get_foo) =
    Normal tt /\
  written_statuses
    (w_trace (snd (sample_serve Sample.production no_options (VString "")
                     get_foo))) = [Num.of_Z 404].
Proof.
  split; [reflexivity|]. split; [reflexivity|]. split; [reflexivity|].
  destruct (not_found_response
              Sample.number_to_string Sample.statuses_message
              Sample.escapeHtml Sample.encodeUrl Sample.parseUrl_original
              Sample.Buffer_byteLength Sample.production no_options
              (VString "") get_foo eq_refl eq_refl eq_refl)
    as (N & W & _).
  split; [exact N | exact W].
Defined.


Lemma detail_outside_production_witness :
  truthy Sample.not_implemented = true /\
  strict_eq_string (VString "Production") "production" = false /\
  truthy (lookup Sample.not_implemented "stack") = true /\
  fst (getErrorMessage Sample.number_to_string Sample.statuses_message
         Sample.not_implemented (Num.of_Z 501) (VString "Production")
         get_foo) =
    Normal (lookup Sample.not_implemented "stack").
Proof.
  split; [reflexivity|]. split; [reflexivity|]. split; [reflexivity|].
  exact (proj1 (detail_outside_production
           Sample.number_to_string Sample.statuses_message
           Sample.not_implemented (Num.of_Z 501) (VString "Production")
           get_foo eq_refl eq_refl) eq_refl).
Defined.

Lemma deferred_write_is_decided_at_the_call_witness :
  headersSent (w_res get_foo_pending) = false /\
  w_listeners get_foo_pending = [] /\
  req_finished (w_req get_foo_pending) = false /\
  derived_message Sample.number_to_string Sample.statuses_message
    Sample.encodeUrl Sample.parseUrl_original development
    Sample.conflicting_error get_foo_pending =
    Normal (lookup Sample.conflicting_error "stack") /\
  res_statusCode
    (w_res (snd (request_finishes
                   Sample.number_to_string Sample.statuses_message
                   Sample.escapeHtml Sample.Buffer_byteLength
                   (mkWorld
                      (w_req (snd (sample_finish development no_options
                                     Sample.conflicting_error get_foo_pending)))
                      (mkResponse (VNumber (Num.of_Z 204)) (VString "No Content")
                         (res_headersSent (w_res get_foo_pending))
                         (res__header (w_res get_foo_pending)))
                      (w_listeners (snd (sample_finish development no_options
                                     Sample.conflicting_error get_foo_pending)))
                      (w_trace (snd (sample_finish development no_options
                                     Sample.conflicting_error get_foo_pending)))))))
    = VNumber (Num.of_Z 400).
Proof.
  split; [reflexivity|]. split; [reflexivity|]. split; [reflexivity|].
  assert (D : derived_message Sample.number_to_string Sample.statuses_message
                Sample.encodeUrl Sample.parseUrl_original development
                Sample.conflicting_error get_foo_pending =
              Normal (lookup Sample.conflicting_error "stack"))
    by (vm_compute; reflexivity).
  split; [exact D|].
  destruct (deferred_write_is_decided_at_the_call
              Sample.number_to_string Sample.statuses_message
              Sample.escapeHtml Sample.encodeUrl Sample.parseUrl_original
              Sample.Buffer_byteLength development no_options
              Sample.conflicting_error get_foo_pending
              (lookup Sample.conflicting_error "stack")
              (sample_document "Error: nope
    at test.js:1:1")
              (VNumber (Num.of_Z 204)) (VString "No Content")
              eq_refl eq_refl eq_refl D)
    as (_ & _ & S & _).
  - vm_compute. reflexivity.
  - rewrite S. vm_compute. reflexivity.
Defined.

Lemma error_headers_snapshot_witness :
  truthy Sample.inheriting_headers = true /\
  lookup (lookup Sample.inheriting_headers "headers") "X-Inherited" =
    VString "1" /\
  fst (getErrorHeaders Sample.inheriting_headers get_foo) =
    Normal (VObject [("Retry-After", VString "5")] []).
Proof.
  split; [reflexivity|]. split; [reflexivity|].
  apply (proj1 (error_headers_snapshot Sample.inheriting_headers get_foo
                  eq_refl)
           [("Retry-After", VString "5")]
           [[("X-Inherited", VString "1")]; Object_prototype]).
  - reflexivity.
  - repeat constructor. intros [].
Defined.
